(** * Bernard run-loop controller and status snapshot (bernard/core.py)

    A shallow embedding of [bernard/core.py]: the status snapshot
    ([BernardStatus]), the configuration loader ([get_bernard_config]) and
    the main loop of the daemon ([Bernard.run]) as a small-step machine
    whose inputs are the answers of the outside world (clock, scheduler,
    file system, signals).

    Conventions.
    - Python numbers that hold seconds ([time.time()], [wait_time]) are
      rationals ([Q]); [int(x)] is truncation toward zero.
    - Python values that travel through dictionaries are [pyval].
    - A Python dictionary with string keys is a [gmap string _].
    - A call that can raise returns a [res]. *)

From Stdlib Require Import QArith Lqa Ascii String.
From stdpp Require Import gmap strings list pretty.

Local Open Scope string_scope.

(** ** Python values, exceptions *)

#[warnings="-register-all"]
Inductive pyval : Type :=
  | VNone
  | VInt (z : Z)
  | VStr (s : string)
  | VList (l : list pyval)
  | VDict (d : gmap string pyval).

Inductive exn : Type :=
  | KeyError
  | TypeError
  | AttributeError
  | IndexError
  | IOError
  | NameError
  | AssertionError
  | YAMLError.

Inductive res (A : Type) : Type :=
  | Ok (a : A)
  | Raise (e : exn).
Arguments Ok {A} a.
Arguments Raise {A} e.

#[global] Instance res_ret : MRet res := λ A a, Ok a.
#[global] Instance res_bind : MBind res := λ A B k r,
  match r with
  | Ok a => k a
  | Raise e => Raise e
  end.

Definition raises {A} (r : res A) : bool :=
  match r with Ok _ => false | Raise _ => true end.

(** [bool(v)]: the truth value Python gives a value. *)
Definition truthy (v : pyval) : bool :=
  match v with
  | VNone => false
  | VInt z => negb (Z.eqb z 0)
  | VStr s => negb (String.eqb s "")
  | VList l => match l with [] => false | _ => true end
  | VDict d => negb (bool_decide (d = ∅))
  end.

(** [a or b] *)
Definition py_or (a b : pyval) : pyval := if truthy a then a else b.

(** [d[k]] on a dictionary with string keys. *)
Definition getitem {V} (d : gmap string V) (k : string) : res V :=
  match d !! k with
  | Some v => Ok v
  | None => Raise KeyError
  end.

(** [table[key]] where the key is an arbitrary value: lists and
    dictionaries cannot be hashed, any other key that is not one of the
    table's strings is missing. *)
Definition getitem_val {V} (table : gmap string V) (key : pyval) : res V :=
  match key with
  | VStr s => getitem table s
  | VList _ | VDict _ => Raise TypeError
  | VNone | VInt _ => Raise KeyError
  end.

(** A dictionary display [{k1: v1, ..., kn: vn}]: the items are stored
    from left to right, a repeated key keeps the last value. *)
Definition dict_literal {V} (items : list (string * V)) : gmap string V :=
  foldl (λ m kv, <[kv.1 := kv.2]> m) ∅ items.

(** [d.update(other)] *)
Definition dict_update {V} (d other : gmap string V) : gmap string V :=
  other ∪ d.

(** [s.splitlines()] for a byte string: the line ends are LF, CR and
    CR LF; they are dropped, and no empty last line is produced. *)
Definition LF : Ascii.ascii := "010"%char.
Definition CR : Ascii.ascii := "013"%char.

Fixpoint splitlines_from (cur : string) (s : string) : list string :=
  match s with
  | EmptyString =>
      match cur with EmptyString => [] | _ => [cur] end
  | String c rest =>
      if Ascii.eqb c LF then cur :: splitlines_from "" rest
      else if Ascii.eqb c CR then
        match rest with
        | String c' rest' =>
            if Ascii.eqb c' LF then cur :: splitlines_from "" rest'
            else cur :: splitlines_from "" rest
        | EmptyString => cur :: splitlines_from "" rest
        end
      else splitlines_from (cur ++ String c "") rest
  end.

Definition splitlines (s : string) : list string := splitlines_from "" s.

(** [v.splitlines()]: only strings have the method. *)
Definition py_splitlines (v : pyval) : res (list string) :=
  match v with
  | VStr s => Ok (splitlines s)
  | _ => Raise AttributeError
  end.

(** [l[0]] *)
Definition first_item {A} (l : list A) : res A :=
  match l with
  | x :: _ => Ok x
  | [] => Raise IndexError
  end.

(** ** The status snapshot: [class BernardStatus(AgentStatus)] *)

(** A check, as far as this module uses one: an object whose
    [get_status()] gives a dictionary of statistics. *)
Record Check : Type := { get_status : gmap string pyval }.

Record BernardStatus : Type := {
  check_stats : list (gmap string pyval);
  schedule_count : pyval;
}.

(** [BernardStatus.__init__(self, checks=[], schedule_count=0)] *)
Definition BernardStatus_init (checks : list Check) (count : pyval)
  : BernardStatus :=
  {| check_stats := get_status <$> checks; schedule_count := count |}.

(** The defaults of the two keyword arguments. *)
Definition default_checks : list Check := [].
Definition default_schedule_count : pyval := VInt 0.

(** [BernardStatus.has_error] *)
Definition has_error (st : BernardStatus) : bool := false.

Section Rendering.
(** Names that the module imports and whose definitions are in other
    files: the status and state constants of [bernard.check] ([S], [R]),
    [style] of [checks.check_status], the base class's [to_dict], and
    what [str()] prints for a list or a dictionary. *)
Variables S_OK S_TIMEOUT S_EXCEPTION S_INVALID_OUTPUT : string.
Variables R_OK R_WARNING R_CRITICAL R_UNKNOWN R_NONE : string.
Variable style : pyval → string → string.
Variable str_container : pyval → string.
Variable AgentStatus_to_dict : BernardStatus → gmap string pyval.

Definition STATUS_COLOR : gmap string string :=
  dict_literal [(S_OK, "green"); (S_TIMEOUT, "yellow");
                (S_EXCEPTION, "red"); (S_INVALID_OUTPUT, "red")].

Definition STATE_COLOR : gmap string string :=
  dict_literal [(R_OK, "green"); (R_WARNING, "yellow");
                (R_CRITICAL, "red"); (R_UNKNOWN, "yellow");
                (R_NONE, "white")].

(** ['%s' % v] *)
Definition fmt_s (v : pyval) : string :=
  match v with
  | VNone => "None"
  | VInt z => pretty z
  | VStr s => s
  | VList _ | VDict _ => str_container v
  end.

(** ['%d' % v] *)
Definition fmt_d (v : pyval) : res string :=
  match v with
  | VInt z => Ok (pretty z)
  | _ => Raise TypeError
  end.

(** The two lines of one check, the body of the [for] loop. *)
Definition check_lines (check : gmap string pyval) : res (list string) :=
  status ← getitem check "status";
  status_color ← getitem_val STATUS_COLOR status;
  state ← getitem check "state";
  state_color ← getitem_val STATE_COLOR state;
  check_name ← getitem check "check_name";
  run_count ← getitem check "run_count";
  run_count_d ← fmt_d run_count;
  message ← getitem check "message";
  message_lines ← py_splitlines (py_or message (VStr " "));
  first_line ← first_item message_lines;
  Ok [ "  " ++ fmt_s check_name ++ ": [" ++ style status status_color
       ++ "] #" ++ run_count_d ++ " run is " ++ style state state_color;
       "    " ++ first_line ].

(** The [for] loop: [lines] grows by two lines per check, the first
    exception leaves the loop. *)
Fixpoint render_checks (lines : list string)
    (stats : list (gmap string pyval)) : res (list string) :=
  match stats with
  | [] => Ok lines
  | check :: stats' =>
      more ← check_lines check;
      render_checks (lines ++ more)%list stats'
  end.

(** [BernardStatus.body_lines] *)
Definition body_lines (st : BernardStatus) : res (list string) :=
  let lines :=
    [ "Schedule count: " ++ fmt_s (schedule_count st);
      "Check count: " ++ pretty (length (check_stats st)) ] in
  let lines := (lines ++ [ ""; "Checks"; "======"; "" ])%list in
  render_checks lines (check_stats st).

(** [BernardStatus.to_dict] *)
Definition to_dict (st : BernardStatus) : gmap string pyval :=
  let status_info := AgentStatus_to_dict st in
  let check_stats_d : gmap string pyval :=
    dict_literal [ ("checks", VList (VDict <$> check_stats st));
                   ("schedule_count", schedule_count st) ] in
  dict_update status_info check_stats_d.

End Rendering.

(** ** Loading the configuration: [get_bernard_config] *)

Inductive level : Type := DEBUG | INFO | ERROR.

Definition BERNARD_CONF : string := "bernard.yaml".

(** What [get_bernard_config] asks of the outside: the operating system's
    name ([get_os]), the path [get_config_path] answers ([None] is
    Python's [None]), the files that can be opened with their text, and
    the YAML parser, which returns a value or raises. *)
Record config_world : Type := {
  get_os : string;
  get_config_path : string → string → option string;
  files : gmap string string;
  yaml_load : string → res pyval;
}.

(** [open(path)]: a path that is not a string is a [TypeError], a file
    that is not there an [IOError]. The result stands for the open file,
    whose [read()] gives the text. *)
Definition py_open (w : config_world) (path : option string) : res string :=
  match path with
  | None => Raise TypeError
  | Some p =>
      match files w !! p with
      | Some text => Ok text
      | None => Raise IOError
      end
  end.

Definition show_path (path : option string) : string :=
  match path with Some p => p | None => "None" end.

(** [get_bernard_config()]: the value returned (or the exception that
    leaves the function) and the log records written. *)
Definition get_bernard_config (w : config_world)
  : res pyval * list (level * string) :=
  let osname := get_os w in
  let config_path := get_config_path w (get_os w) BERNARD_CONF in
  match py_open w config_path with
  | Raise IOError | Raise TypeError =>
      (Ok (VDict ∅),
       [(INFO, "Bernard isn't configured: can't find " ++ BERNARD_CONF)])
  | Raise e => (Raise e, [])
  | Ok text =>
      let loaded :=
        bernard_config ← yaml_load w text;
        match bernard_config with
        | VNone => Raise AssertionError
        | _ => Ok bernard_config
        end in
      match loaded with
      | Ok bernard_config => (Ok bernard_config, [])
      | Raise _ =>
          (Ok (VDict ∅),
           [(ERROR, "Unable to parse yaml config in " ++ show_path config_path)])
      end
  end.

(** ** The daemon: [class Bernard(Daemon)] *)

Inductive signal : Type := SIGTERM | SIGINT | SIGUSR1.

(** What the process does to the outside, in the order it does it. *)
Inductive event : Type :=
  | EvLog (lvl : level) (msg : string)
  | EvFromConfig (config : pyval)       (* Scheduler.from_config(hostname, config) *)
  | EvProcess                           (* scheduler.process() *)
  | EvPersist (st : BernardStatus)      (* BernardStatus(...).persist() *)
  | EvWatchdogReset (extra : option Z)  (* StaticWatchdog.reset([extra]) *)
  | EvSleep (seconds : Q)               (* time.sleep(seconds) *)
  | EvRemoveStatus.                     (* BernardStatus.remove_latest_status() *)

(** How the process ends: [sys.exit(code)], or an exception that nothing
    catches. *)
Inductive outcome : Type :=
  | SysExit (code : Z)
  | Uncaught (e : exn).

(** The statements of [run], by the line they start on. *)
Inductive label : Type :=
  | L_load_config       (* 63 *)
  | L_from_config       (* 64 *)
  | L_persist_startup   (* 67 *)
  | L_stamp_startup     (* 68 *)
  | L_restart_interval  (* 71 *)
  | L_agent_start       (* 72 *)
  | L_while             (* 75 *)
  | L_process           (* 77 *)
  | L_wait_time         (* 79 *)
  | L_restart_check     (* 82 *)
  | L_status_check      (* 86 *)
  | L_persist           (* 87 *)
  | L_stamp             (* 89 *)
  | L_plan_check        (* 93 *)
  | L_watchdog          (* 95 *)
  | L_sleep             (* 97 *)
  | L_remove_status     (* 100 *)
  | L_exit.             (* 104 *)

#[global] Instance label_eq_dec : EqDecision label.
Proof. solve_decision. Defined.

#[global] Instance signal_eq_dec : EqDecision signal.
Proof. solve_decision. Defined.

(** The attributes of the [Bernard] object that [run] uses, its two local
    variables, and the history of the process. An attribute or a local
    that has not been assigned yet is [None]. *)
Record state : Type := {
  pc : label;
  ended : option outcome;
  run_forever : bool;
  autorestart : bool;
  last_info_update : option Q;
  restart_interval : option Z;
  agent_start : option Q;
  bernard_config : option pyval;
  wait_time : option Q;
  trace : list event;
}.

(** The answers of the outside world to one statement: the signals
    delivered just before it, and what the clock, the scheduler and the
    file system say when the statement asks. *)
Record world : Type := {
  signals : list signal;
  clock : Q;                  (* time.time() *)
  sched_wait_time : Q;        (* scheduler.wait_time() *)
  sched_checks : list Check;  (* scheduler.checks *)
  sched_count : Z;            (* scheduler.schedule_count *)
  config_io : config_world;
}.

Definition RESTART_INTERVAL : Z := 4 * 24 * 60 * 60.

(** [int(x)] *)
Definition py_int (x : Q) : Z := Z.quot (Qnum x) (Zpos (Qden x)).

(** [x > y] on numbers *)
Definition Qgtb (x y : Q) : bool := negb (Qle_bool x y).

(** The names bound in the module's global scope: what its [import]
    statements bring in and what it defines. *)
Definition module_globals : list string :=
  [ "logging"; "signal"; "sys"; "time"; "Daemon";
    "StaticWatchdog"; "get_os"; "yaml"; "yLoader";
    "AgentStatus"; "style"; "get_config_path";
    "R"; "S"; "Scheduler";
    "RESTART_INTERVAL"; "BERNARD_CONF"; "log";
    "Bernard"; "BernardStatus"; "get_bernard_config" ].

(** Reading a global name (none of the names read is a builtin). *)
Definition load_global {A} (name : string) (value : A) : res A :=
  if bool_decide (name ∈ module_globals) then Ok value else Raise NameError.

(** Reading an attribute or a local variable. *)
Definition load {A} (slot : option A) (e : exn) : res A :=
  match slot with Some a => Ok a | None => Raise e end.

Definition goto (l : label) (s : state) : state :=
  {| pc := l; ended := ended s; run_forever := run_forever s;
     autorestart := autorestart s; last_info_update := last_info_update s;
     restart_interval := restart_interval s; agent_start := agent_start s;
     bernard_config := bernard_config s; wait_time := wait_time s;
     trace := trace s |}.

Definition emit (ev : event) (s : state) : state :=
  {| pc := pc s; ended := ended s; run_forever := run_forever s;
     autorestart := autorestart s; last_info_update := last_info_update s;
     restart_interval := restart_interval s; agent_start := agent_start s;
     bernard_config := bernard_config s; wait_time := wait_time s;
     trace := trace s ++ [ev] |}.

Definition finish (o : outcome) (s : state) : state :=
  {| pc := pc s; ended := Some o; run_forever := run_forever s;
     autorestart := autorestart s; last_info_update := last_info_update s;
     restart_interval := restart_interval s; agent_start := agent_start s;
     bernard_config := bernard_config s; wait_time := wait_time s;
     trace := trace s |}.

Definition set_run_forever (b : bool) (s : state) : state :=
  {| pc := pc s; ended := ended s; run_forever := b;
     autorestart := autorestart s; last_info_update := last_info_update s;
     restart_interval := restart_interval s; agent_start := agent_start s;
     bernard_config := bernard_config s; wait_time := wait_time s;
     trace := trace s |}.

Definition set_last_info_update (t : Q) (s : state) : state :=
  {| pc := pc s; ended := ended s; run_forever := run_forever s;
     autorestart := autorestart s; last_info_update := Some t;
     restart_interval := restart_interval s; agent_start := agent_start s;
     bernard_config := bernard_config s; wait_time := wait_time s;
     trace := trace s |}.

Definition set_restart_interval (n : Z) (s : state) : state :=
  {| pc := pc s; ended := ended s; run_forever := run_forever s;
     autorestart := autorestart s; last_info_update := last_info_update s;
     restart_interval := Some n; agent_start := agent_start s;
     bernard_config := bernard_config s; wait_time := wait_time s;
     trace := trace s |}.

Definition set_agent_start (t : Q) (s : state) : state :=
  {| pc := pc s; ended := ended s; run_forever := run_forever s;
     autorestart := autorestart s; last_info_update := last_info_update s;
     restart_interval := restart_interval s; agent_start := Some t;
     bernard_config := bernard_config s; wait_time := wait_time s;
     trace := trace s |}.

Definition set_bernard_config (c : pyval) (s : state) : state :=
  {| pc := pc s; ended := ended s; run_forever := run_forever s;
     autorestart := autorestart s; last_info_update := last_info_update s;
     restart_interval := restart_interval s; agent_start := agent_start s;
     bernard_config := Some c; wait_time := wait_time s;
     trace := trace s |}.

Definition set_wait_time (t : Q) (s : state) : state :=
  {| pc := pc s; ended := ended s; run_forever := run_forever s;
     autorestart := autorestart s; last_info_update := last_info_update s;
     restart_interval := restart_interval s; agent_start := agent_start s;
     bernard_config := bernard_config s; wait_time := Some t;
     trace := trace s |}.

(** An exception that leaves [run]: nothing in the module catches it. *)
Definition crash (e : exn) (s : state) : state := finish (Uncaught e) s.

(** [Bernard.__init__(pidfile, hostname, autorestart, start_event)],
    followed by the three [signal.signal] calls that open [run] (lines
    54 to 60): the state in which the handlers below are in place. *)
Definition Bernard_init (autorestart_arg : bool) : state :=
  {| pc := L_load_config; ended := None; run_forever := true;
     autorestart := autorestart_arg; last_info_update := None;
     restart_interval := None; agent_start := None;
     bernard_config := None; wait_time := None;
     trace := [EvWatchdogReset None] |}.

(** The records a call has written go to the log in order. *)
Definition log_records (logs : list (level * string)) (s : state) : state :=
  foldl (λ s' rec, emit (EvLog rec.1 rec.2) s') s logs.

Section Controller.
(** [AgentSupervisor.RESTART_EXIT_STATUS]: the class [AgentSupervisor]
    and its constant are defined in another file. *)
Variable RESTART_EXIT_STATUS : Z.

(** [Bernard._handle_sigterm] *)
Definition _handle_sigterm (s : state) : state :=
  set_run_forever false
    (emit (EvLog DEBUG "Caught sigterm. Stopping run loop.") s).

(** [Bernard._do_restart]: the argument of [sys.exit] is evaluated
    first, and its first step is to read the global [AgentSupervisor]. *)
Definition _do_restart (s : state) : state :=
  let s := emit (EvLog INFO "Running an auto-restart.") s in
  match load_global "AgentSupervisor" RESTART_EXIT_STATUS with
  | Ok code => finish (SysExit code) s
  | Raise e => crash e s
  end.

(** [Bernard._handle_sigusr1] *)
Definition _handle_sigusr1 (s : state) : state :=
  _do_restart (_handle_sigterm s).

(** [Bernard._should_restart], with the value [time.time()] returns. *)
Definition _should_restart (now : Q) (s : state) : res bool :=
  start ← load (agent_start s) AttributeError;
  interval ← load (restart_interval s) AttributeError;
  Ok (Qgtb (now - start) (inject_Z interval)).

(** The handlers [run] installs: SIGTERM and SIGINT share one. *)
Definition handler (sg : signal) : state → state :=
  match sg with
  | SIGTERM | SIGINT => _handle_sigterm
  | SIGUSR1 => _handle_sigusr1
  end.

(** The signals that arrive between two statements are handled in
    order, as long as the process lives. *)
Fixpoint deliver (sgs : list signal) (s : state) : state :=
  match sgs with
  | [] => s
  | sg :: rest =>
      match ended s with
      | Some _ => s
      | None => deliver rest (handler sg s)
      end
  end.

(** The test of line 86. *)
Definition status_is_due (now : Q) (s : state) : res bool :=
  last ← load (last_info_update s) AttributeError;
  if Qgtb now (last + 10) then Ok true
  else wt ← load (wait_time s) NameError; Ok (Qgtb wt 10).

(** One statement of [run]. *)
Definition exec (w : world) (s : state) : state :=
  match pc s with
  | L_load_config =>
      let '(r, logs) := get_bernard_config (config_io w) in
      let s := log_records logs s in
      match r with
      | Ok c => goto L_from_config (set_bernard_config c s)
      | Raise e => crash e s
      end
  | L_from_config =>
      match load (bernard_config s) NameError with
      | Ok c => goto L_persist_startup (emit (EvFromConfig c) s)
      | Raise e => crash e s
      end
  | L_persist_startup =>
      goto L_stamp_startup
        (emit (EvPersist (BernardStatus_init (sched_checks w)
                            default_schedule_count)) s)
  | L_stamp_startup =>
      goto L_restart_interval (set_last_info_update (clock w) s)
  | L_restart_interval =>
      goto L_agent_start
        (set_restart_interval (py_int (inject_Z RESTART_INTERVAL)) s)
  | L_agent_start =>
      goto L_while (set_agent_start (clock w) s)
  | L_while =>
      if run_forever s then goto L_process s else goto L_remove_status s
  | L_process =>
      goto L_wait_time (emit EvProcess s)
  | L_wait_time =>
      goto L_restart_check (set_wait_time (sched_wait_time w) s)
  | L_restart_check =>
      if autorestart s then
        match _should_restart (clock w) s with
        | Ok true => _do_restart s
        | Ok false => goto L_status_check s
        | Raise e => crash e s
        end
      else goto L_status_check s
  | L_status_check =>
      match status_is_due (clock w) s with
      | Ok true => goto L_persist s
      | Ok false => goto L_plan_check s
      | Raise e => crash e s
      end
  | L_persist =>
      goto L_stamp
        (emit (EvPersist (BernardStatus_init (sched_checks w)
                            (VInt (sched_count w)))) s)
  | L_stamp =>
      goto L_plan_check (set_last_info_update (clock w) s)
  | L_plan_check =>
      if run_forever s then goto L_watchdog s else goto L_while s
  | L_watchdog =>
      match load (wait_time s) NameError with
      | Ok wt => goto L_sleep (emit (EvWatchdogReset (Some (py_int wt))) s)
      | Raise e => crash e s
      end
  | L_sleep =>
      let seconds := sched_wait_time w in
      if Qle_bool 0 seconds then goto L_while (emit (EvSleep seconds) s)
      else crash IOError s
  | L_remove_status =>
      goto L_exit (emit EvRemoveStatus s)
  | L_exit =>
      finish (SysExit 0) (emit (EvLog INFO "Exiting. Bye bye.") s)
  end.

(** One step of the process: the pending signals, then the statement. *)
Definition step (w : world) (s : state) : state :=
  match ended s with
  | Some _ => s
  | None =>
      let s' := deliver (signals w) s in
      match ended s' with
      | Some _ => s'
      | None => exec w s'
      end
  end.

Fixpoint run (ws : list world) (s : state) : state :=
  match ws with
  | [] => s
  | w :: ws' => run ws' (step w s)
  end.

(** The states the process goes through, the first one included. *)
Fixpoint history (ws : list world) (s : state) : list state :=
  match ws with
  | [] => [s]
  | w :: ws' => s :: history ws' (step w s)
  end.

End Controller.

(** ** Predicates used in the statements *)

(** The data model of a check's statistics: the five keys are present,
    the status and the state are among the constants the colour tables
    are built from, the run count is an integer and the message is a
    string or [None]. *)
Definition well_formed_stat (statuses states : list string)
    (check : gmap string pyval) : bool :=
  match check !! "status", check !! "state", check !! "check_name",
        check !! "run_count", check !! "message" with
  | Some (VStr status), Some (VStr state), Some _, Some (VInt _), Some message =>
      bool_decide (status ∈ statuses) && bool_decide (state ∈ states)
      && match message with VNone | VStr _ => true | _ => false end
  | _, _, _, _, _ => false
  end.

(** The configuration file is missing: there is no path, or no file at
    the path. *)
Definition config_missing (w : config_world) : bool :=
  match get_config_path w (get_os w) BERNARD_CONF with
  | None => true
  | Some p => bool_decide (files w !! p = None)
  end.

(** The file is there and the parser rejects its text. *)
Definition config_unparsable (w : config_world) : bool :=
  match get_config_path w (get_os w) BERNARD_CONF with
  | None => false
  | Some p =>
      match files w !! p with
      | Some text => raises (yaml_load w text)
      | None => false
      end
  end.

(** The file holds a document that is YAML's null (an empty file, for
    one): the parser returns [None]. *)
Definition config_empty (w : config_world) : bool :=
  match get_config_path w (get_os w) BERNARD_CONF with
  | None => false
  | Some p =>
      match files w !! p with
      | Some text =>
          match yaml_load w text with Ok VNone => true | _ => false end
      | None => false
      end
  end.

(** ** Sample inputs *)

Definition sample_check_A : Check :=
  {| get_status := dict_literal
       [ ("check_name", VStr "A"); ("status", VStr "ok");
         ("state", VStr "ok"); ("run_count", VInt 5);
         ("message", VNone) ] |}.

Definition sample_check_B : Check :=
  {| get_status := dict_literal
       [ ("check_name", VStr "B"); ("status", VStr "timeout");
         ("state", VStr "warning"); ("run_count", VInt 2);
         ("message", VStr "slow") ] |}.

Definition sample_status : BernardStatus :=
  BernardStatus_init [sample_check_A; sample_check_B] (VInt 7).

(** A machine with no configuration file at the path it is given, and
    one whose file is not YAML. *)
Definition sample_no_file : config_world :=
  {| get_os := "linux";
     get_config_path := λ _ name, Some ("/etc/dd-agent/" ++ name);
     files := ∅;
     yaml_load := λ _, Raise YAMLError |}.

Definition sample_bad_file : config_world :=
  {| get_os := "linux";
     get_config_path := λ _ name, Some ("/etc/dd-agent/" ++ name);
     files := {[ "/etc/dd-agent/bernard.yaml" := "checks: [" ]};
     yaml_load := λ _, Raise YAMLError |}.

(** ** Observations on a state *)

Definition is_log (ev : event) : bool :=
  match ev with EvLog _ _ => true | _ => false end.

(** What the process did, the log records left out. *)
Definition effects (s : state) : list event :=
  filter (λ ev, is_log ev = false) (trace s).

(** The snapshots persisted so far, oldest first. *)
Definition persisted (s : state) : list BernardStatus :=
  omap (λ ev, match ev with EvPersist st => Some st | _ => None end) (trace s).

(** The number of scheduler steps made so far. *)
Definition process_count (s : state) : nat :=
  length (filter (λ ev, match ev with EvProcess => true | _ => false end = true)
                 (trace s)).

(** [_do_restart] has been entered: it is the only writer of this record. *)
Definition is_restart_log (ev : event) : bool :=
  match ev with
  | EvLog INFO msg => String.eqb msg "Running an auto-restart."
  | _ => false
  end.

Definition restarted (s : state) : bool := existsb is_restart_log (trace s).

(** No restart signal among the signals. *)
Definition graceful (sgs : list signal) : bool :=
  forallb (λ sg, negb (bool_decide (sg = SIGUSR1))) sgs.

(** The part of [run] a statement belongs to: the six statements before
    the loop are stages 0 to 5, everything from the [while] on is 6. *)
Definition stage (l : label) : nat :=
  match l with
  | L_load_config => 0
  | L_from_config => 1
  | L_persist_startup => 2
  | L_stamp_startup => 3
  | L_restart_interval => 4
  | L_agent_start => 5
  | _ => 6
  end.

Definition started (l : label) : bool := bool_decide (stage l = 6%nat).

(** The statements between the assignment of [wait_time] and the sleep. *)
Definition uses_wait_time (l : label) : bool :=
  match l with
  | L_restart_check | L_status_check | L_persist | L_stamp
  | L_plan_check | L_watchdog => true
  | _ => false
  end.

Definition is_set {A} (slot : option A) : bool :=
  match slot with Some _ => true | None => false end.

(** What holds of every state the process reaches: a variable is
    assigned exactly from the statement after its assignment on, the
    restart interval is the constant, and the exit follows the removal of
    the snapshot. *)
Definition consistent_of (l : label) (li : option Q) (ri : option Z)
    (st : option Q) (bc : option pyval) (wt : option Q)
    (eff : list event) : bool :=
  Bool.eqb (is_set bc) (1 <=? stage l)%nat
  && Bool.eqb (is_set li) (4 <=? stage l)%nat
  && match ri with
     | Some n => (5 <=? stage l)%nat && (n =? RESTART_INTERVAL)%Z
     | None => (stage l <? 5)%nat
     end
  && Bool.eqb (is_set st) (6 <=? stage l)%nat
  && (if uses_wait_time l then is_set wt else true)
  && match l with
     | L_exit => match last eff with Some EvRemoveStatus => true | _ => false end
     | _ => true
     end.

Definition consistent (s : state) : bool :=
  consistent_of (pc s) (last_info_update s) (restart_interval s)
                (agent_start s) (bernard_config s) (wait_time s) (effects s).

(** The number of statements left before the exit once the loop flag is
    down and no restart interferes. *)
Definition distance (l : label) : nat :=
  match l with
  | L_exit => 1
  | L_remove_status => 2
  | L_while => 3
  | L_sleep | L_plan_check | L_agent_start => 4
  | L_watchdog | L_stamp | L_restart_interval => 5
  | L_persist | L_stamp_startup => 6
  | L_status_check | L_persist_startup => 7
  | L_restart_check | L_from_config => 8
  | L_wait_time | L_load_config => 9
  | L_process => 10
  end.

(** Clock readings, and the values [last_info_update] takes. *)
Fixpoint nondecreasing (l : list Q) : bool :=
  match l with
  | a :: t =>
      match t with
      | b :: _ => Qle_bool a b && nondecreasing t
      | [] => true
      end
  | [] => true
  end.

Definition stamps (states : list state) : list Q :=
  omap last_info_update states.

(** Two states that differ at most in the loop flag, the log and the
    outcome: what a signal handler leaves alone. *)
Definition same_vars (s s' : state) : Prop :=
  pc s' = pc s ∧ autorestart s' = autorestart s
  ∧ last_info_update s' = last_info_update s
  ∧ restart_interval s' = restart_interval s
  ∧ agent_start s' = agent_start s
  ∧ bernard_config s' = bernard_config s
  ∧ wait_time s' = wait_time s
  ∧ effects s' = effects s.

(** The outside world at one statement, for the examples: the scheduler
    has the two sample checks and has made seven steps, and there is no
    configuration file. *)
Definition sample_world (sgs : list signal) (now wait : Q) : world :=
  {| signals := sgs; clock := now; sched_wait_time := wait;
     sched_checks := [sample_check_A; sample_check_B]; sched_count := 7;
     config_io := sample_no_file |}.

(** The six statements before the loop, at second 100. *)
Definition startup_worlds : list world := replicate 6 (sample_world [] 100 3).

(** The scheduler steps still ahead of a statement once the flag is
    down: the one about to be made, if any. *)
Definition process_budget (l : label) : nat :=
  match l with L_process => 1 | _ => 0 end.

(** States of the sample process (restart status 5): at the first
    statement of the loop body, at the restart check, at the status
    check and at line 93, at second 101 with a wait of [wait]. *)
Definition at_process (ar : bool) : state :=
  run 5 (startup_worlds ++ [sample_world [] 101 3]) (Bernard_init ar).

Definition at_restart_check (ar : bool) (wait : Q) : state :=
  run 5 (startup_worlds ++ replicate 3 (sample_world [] 101 wait))
      (Bernard_init ar).

Definition at_status_check (wait : Q) : state :=
  run 5 (startup_worlds ++ replicate 4 (sample_world [] 101 wait))
      (Bernard_init false).

Definition at_plan_check : state :=
  run 5 (startup_worlds ++ replicate 5 (sample_world [] 101 3))
      (Bernard_init false).

(** ** Further observations on a state *)

Definition is_removal (ev : event) : bool :=
  match ev with EvRemoveStatus => true | _ => false end.

(** The snapshot has been removed. *)
Definition removed (s : state) : bool := existsb is_removal (trace s).

(** How a process can have ended, given the statement it is at and
    whether [_do_restart] was entered: alive only if it was not; after
    [sys.exit] only with status 0 at the last statement; by a
    [NameError] only out of [_do_restart]; by an [IOError] only at the
    sleep. A removed snapshot puts the process at its last statement. *)
Definition ending_of (l : label) (o : option outcome) (rst rem : bool) : bool :=
  match o with
  | None => negb rst
  | Some (SysExit code) => (code =? 0)%Z && bool_decide (l = L_exit) && negb rst
  | Some (Uncaught NameError) => rst
  | Some (Uncaught IOError) => bool_decide (l = L_sleep) && negb rst
  | Some (Uncaught _) => false
  end
  && implb rem (bool_decide (l = L_exit)).

Definition well_ended (s : state) : bool :=
  ending_of (pc s) (ended s) (restarted s) (removed s).

Definition is_reset (ev : event) : bool :=
  match ev with EvWatchdogReset (Some _) => true | _ => false end.

Definition is_sleep (ev : event) : bool :=
  match ev with EvSleep _ => true | _ => false end.

(** Every sleep in the list comes right after a watchdog reset that was
    given a margin; [prev] says whether the list itself comes right
    after one. *)
Fixpoint sleeps_guarded (prev : bool) (l : list event) : bool :=
  match l with
  | [] => true
  | ev :: l' =>
      (if is_sleep ev then prev else true) && sleeps_guarded (is_reset ev) l'
  end.

Definition ends_in_reset (prev : bool) (l : list event) : bool :=
  match last l with Some ev => is_reset ev | None => prev end.

Definition guarded_at (l : label) (eff : list event) : bool :=
  sleeps_guarded false eff
  && (if bool_decide (l = L_sleep) then ends_in_reset false eff else true).

(** Exactly the statistics [body_lines] can render: as
    [well_formed_stat], but the message may be any value that is false or
    a string. *)
Definition renderable_stat (statuses states : list string)
    (check : gmap string pyval) : bool :=
  match check !! "status", check !! "state", check !! "check_name",
        check !! "run_count", check !! "message" with
  | Some (VStr status), Some (VStr state), Some _, Some (VInt _), Some message =>
      bool_decide (status ∈ statuses) && bool_decide (state ∈ states)
      && match py_or message (VStr " ") with VStr _ => true | _ => false end
  | _, _, _, _, _ => false
  end.

(** Strings without a line end, and lines put together with LF after
    each. *)
Fixpoint has_break (s : string) : bool :=
  match s with
  | EmptyString => false
  | String c rest => Ascii.eqb c LF || Ascii.eqb c CR || has_break rest
  end.

Fixpoint unlines (ls : list string) : string :=
  match ls with
  | [] => ""
  | l :: rest => l ++ String LF (unlines rest)
  end.

(** A machine whose configuration file holds a YAML list, with a parser
    that knows this one text. *)
Definition sample_list_file : config_world :=
  {| get_os := "linux";
     get_config_path := λ _ name, Some ("/etc/dd-agent/" ++ name);
     files := {[ "/etc/dd-agent/bernard.yaml" := "- a" ]};
     yaml_load := λ text,
       if String.eqb text "- a" then Ok (VList [VStr "a"])
       else Raise YAMLError |}.

(** The sample process at the [while] test, and what it goes through
    when a stop signal arrives during the scheduler step. *)
Definition at_while (ar : bool) : state :=
  run 5 startup_worlds (Bernard_init ar).

Definition stopped_worlds : list world :=
  (startup_worlds
   ++ [sample_world [] 101 3; sample_world [SIGTERM] 101 3]
   ++ replicate 12 (sample_world [] 101 3))%list.

(** A check whose message has two lines. *)
Definition sample_check_C : Check :=
  {| get_status := dict_literal
       [ ("check_name", VStr "C"); ("status", VStr "exception");
         ("state", VStr "unknown"); ("run_count", VInt 1);
         ("message", VStr (unlines ["boom"; "  at line 3"])) ] |}.

(** * Properties *)

(** ** Dictionaries and strings *)

Lemma foldl_insert_is_Some {V} (items : list (string * V)) (m : gmap string V) k :
  is_Some (foldl (λ m kv, <[kv.1 := kv.2]> m) m items !! k)
  ↔ k ∈ items.*1 ∨ is_Some (m !! k).
Proof.
  revert m. induction items as [|[k' v] items IH]; intros m; simpl.
  - rewrite elem_of_nil. tauto.
  - rewrite IH, elem_of_cons, lookup_insert_is_Some.
    destruct (decide (k' = k)) as [->|Hne]; [tauto|].
    split; [intros [?|[?|[? ?]]]|intros [[?|?]|?]]; auto; congruence.
Qed.

Lemma dict_literal_is_Some {V} (items : list (string * V)) k :
  k ∈ items.*1 → is_Some (dict_literal items !! k).
Proof. intros Hk. apply foldl_insert_is_Some. by left. Qed.

Lemma dict_update_lookup {V} (d other : gmap string V) k v :
  other !! k = Some v → dict_update d other !! k = Some v.
Proof. intros H. unfold dict_update. by apply lookup_union_Some_l. Qed.

Lemma append_char_nonempty cur c : cur ++ String c "" ≠ "".
Proof. destruct cur; discriminate. Qed.

Lemma splitlines_from_nonempty s cur :
  cur ≠ "" ∨ s ≠ "" → splitlines_from cur s ≠ [].
Proof.
  revert cur. induction s as [|c rest IH]; intros cur H; simpl.
  - destruct cur; [destruct H; congruence | discriminate].
  - destruct (Ascii.eqb c LF); [discriminate|].
    destruct (Ascii.eqb c CR).
    + destruct rest as [|c' rest']; [discriminate|].
      destruct (Ascii.eqb c' LF); discriminate.
    + apply IH. left. apply append_char_nonempty.
Qed.

Lemma splitlines_nonempty s : s ≠ "" → splitlines s ≠ [].
Proof. intros H. apply splitlines_from_nonempty. by right. Qed.

(** The message line: whatever the message (a string or [None]), its
    first line exists. *)
Lemma message_first_line (message : pyval) :
  match message with VNone | VStr _ => true | _ => false end = true →
  ∃ ls line, py_splitlines (py_or message (VStr " ")) = Ok ls
             ∧ first_item ls = Ok line.
Proof.
  intros Hm.
  assert (∃ s, py_or message (VStr " ") = VStr s ∧ s ≠ "") as (s & -> & Hs).
  { destruct message as [|z|s|l|d]; try discriminate.
    - exists " ". by split.
    - unfold py_or; simpl. destruct (String.eqb_spec s "") as [->|Hne]; simpl.
      + exists " ". by split.
      + by exists s. }
  simpl. pose proof (splitlines_nonempty s Hs) as Hne.
  destruct (splitlines s) as [|line ls] eqn:E; [done|].
  by exists (line :: ls), line.
Qed.

(** ** The status snapshot *)

Section RenderingFacts.
Variables S_OK S_TIMEOUT S_EXCEPTION S_INVALID_OUTPUT : string.
Variables R_OK R_WARNING R_CRITICAL R_UNKNOWN R_NONE : string.
Variable style : pyval → string → string.
Variable str_container : pyval → string.

Let statuses := [S_OK; S_TIMEOUT; S_EXCEPTION; S_INVALID_OUTPUT].
Let states := [R_OK; R_WARNING; R_CRITICAL; R_UNKNOWN; R_NONE].
Let status_color := STATUS_COLOR S_OK S_TIMEOUT S_EXCEPTION S_INVALID_OUTPUT.
Let state_color := STATE_COLOR R_OK R_WARNING R_CRITICAL R_UNKNOWN R_NONE.
Let lines_of :=
  check_lines S_OK S_TIMEOUT S_EXCEPTION S_INVALID_OUTPUT
              R_OK R_WARNING R_CRITICAL R_UNKNOWN R_NONE style str_container.
Let render :=
  render_checks S_OK S_TIMEOUT S_EXCEPTION S_INVALID_OUTPUT
                R_OK R_WARNING R_CRITICAL R_UNKNOWN R_NONE style str_container.

Lemma status_color_defined status :
  status ∈ statuses → ∃ c, getitem_val status_color (VStr status) = Ok c.
Proof.
  intros Hin. simpl. unfold getitem.
  destruct (dict_literal_is_Some
              [(S_OK, "green"); (S_TIMEOUT, "yellow");
               (S_EXCEPTION, "red"); (S_INVALID_OUTPUT, "red")] status Hin)
    as [c Hc].
  exists c. subst status_color. unfold STATUS_COLOR. by rewrite Hc.
Qed.

Lemma state_color_defined state :
  state ∈ states → ∃ c, getitem_val state_color (VStr state) = Ok c.
Proof.
  intros Hin. simpl. unfold getitem.
  destruct (dict_literal_is_Some
              [(R_OK, "green"); (R_WARNING, "yellow");
               (R_CRITICAL, "red"); (R_UNKNOWN, "yellow");
               (R_NONE, "white")] state Hin)
    as [c Hc].
  exists c. subst state_color. unfold STATE_COLOR. by rewrite Hc.
Qed.

Lemma check_lines_defined check :
  well_formed_stat statuses states check = true →
  ∃ l1 l2, lines_of check = Ok [l1; l2].
Proof.
  unfold well_formed_stat. intros Hwf.
  destruct (check !! "status") as [[| |status| |]|] eqn:Est; try done.
  destruct (check !! "state") as [[| |state| |]|] eqn:Esa; try done.
  destruct (check !! "check_name") as [name|] eqn:Ena; try done.
  destruct (check !! "run_count") as [[|count| | |]|] eqn:Erc; try done.
  destruct (check !! "message") as [message|] eqn:Eme; try done.
  apply andb_true_iff in Hwf as [Hwf Hmsg].
  apply andb_true_iff in Hwf as [Hst Hsa].
  apply bool_decide_eq_true in Hst, Hsa.
  destruct (status_color_defined status Hst) as [c1 Hc1].
  destruct (state_color_defined state Hsa) as [c2 Hc2].
  destruct (message_first_line message Hmsg) as (ls & line & Hls & Hline).
  subst lines_of. unfold check_lines, getitem.
  rewrite Est. cbn [mbind res_bind]. fold status_color. rewrite Hc1.
  rewrite Esa. cbn [mbind res_bind]. fold state_color. rewrite Hc2.
  rewrite Ena, Erc. cbn [mbind res_bind fmt_d]. rewrite Eme.
  cbn [mbind res_bind]. rewrite Hls. cbn [mbind res_bind]. rewrite Hline.
  eauto.
Qed.

Lemma render_checks_defined stats : ∀ lines,
  Forall (λ check, well_formed_stat statuses states check = true) stats →
  ∃ out, render lines stats = Ok out
         ∧ length out = (length lines + 2 * length stats)%nat.
Proof.
  induction stats as [|check stats IH]; intros lines Hall; simpl.
  - exists lines. split; [done | lia].
  - apply Forall_cons in Hall as [Hc Hall].
    destruct (check_lines_defined check Hc) as (l1 & l2 & Hl).
    subst render lines_of. unfold render_checks; fold render_checks.
    rewrite Hl. cbn [mbind res_bind].
    destruct (IH (lines ++ [l1; l2])%list Hall) as (out & Hout & Hlen).
    exists out. split; [exact Hout|].
    rewrite Hlen, length_app. simpl. lia.
Qed.

(** C10. Rendering a snapshot never raises when every check's
    statistics follow the data model (status and state among the
    constants of the colour tables, message a string or [None]): both
    colour lookups succeed, the message has a first line, and
    [body_lines] returns the six header lines and two lines per check. *)
Theorem body_lines_total (st : BernardStatus) :
  Forall (λ check, well_formed_stat statuses states check = true)
         (check_stats st) →
  ∃ lines,
    body_lines S_OK S_TIMEOUT S_EXCEPTION S_INVALID_OUTPUT
               R_OK R_WARNING R_CRITICAL R_UNKNOWN R_NONE
               style str_container st = Ok lines
    ∧ length lines = (6 + 2 * length (check_stats st))%nat.
Proof.
  intros Hall. unfold body_lines.
  edestruct (render_checks_defined (check_stats st)) as (out & Hout & Hlen);
    [exact Hall|].
  exists out. split; [exact Hout|]. rewrite Hlen. simpl. lia.
Qed.

End RenderingFacts.

Lemma body_lines_total_witness :
  ∃ lines,
    body_lines "ok" "timeout" "exception" "invalid_output"
               "ok" "warning" "critical" "unknown" "none"
               (λ _ colour, colour) (λ _, "") sample_status = Ok lines
    ∧ length lines = (6 + 2 * length (check_stats sample_status))%nat.
Proof.
  apply body_lines_total.
  unfold sample_status, BernardStatus_init; simpl.
  constructor; [vm_compute; reflexivity|].
  constructor; [vm_compute; reflexivity|].
  constructor.
Defined.

(** The two sample checks, rendered with a [style] that shows the colour
    only. *)
Example body_lines_sample :
  body_lines "ok" "timeout" "exception" "invalid_output"
             "ok" "warning" "critical" "unknown" "none"
             (λ _ colour, colour) (λ _, "") sample_status
  = Ok [ "Schedule count: 7"; "Check count: 2"; ""; "Checks"; "======"; "";
         "  A: [green] #5 run is green"; "     ";
         "  B: [yellow] #2 run is yellow"; "    slow" ].
Proof. vm_compute. reflexivity. Qed.

Example splitlines_sample :
  splitlines (String "a" (String CR (String LF (String "b" (String LF ""))))) = ["a"; "b"]
  ∧ splitlines (String LF "") = [""] ∧ splitlines "" = [].
Proof. repeat split; reflexivity. Qed.

(** C8. A snapshot built from [N] checks and a schedule count serializes
    to a dictionary whose ["checks"] entry is the list of the [N]
    statistics, one per check and in the checks' order, and whose
    ["schedule_count"] entry is the count given at construction,
    whatever the base class puts in the dictionary. *)
Theorem to_dict_round_trip (AgentStatus_to_dict : BernardStatus → gmap string pyval)
    (checks : list Check) (count : pyval) :
  let d := to_dict AgentStatus_to_dict (BernardStatus_init checks count) in
  ∃ entries : list pyval,
    d !! "checks" = Some (VList entries)
    ∧ length entries = length checks
    ∧ (∀ i : nat, entries !! i = (λ c, VDict (get_status c)) <$> checks !! i)
    ∧ d !! "schedule_count" = Some count.
Proof.
  simpl. exists (VDict <$> (get_status <$> checks)).
  split; [|split; [|split]].
  - apply dict_update_lookup. unfold dict_literal. simpl.
    rewrite lookup_insert_ne by done. apply lookup_insert_eq.
  - by rewrite !length_fmap.
  - intros i. rewrite !list_lookup_fmap. by destruct (checks !! i).
  - apply dict_update_lookup. unfold dict_literal. simpl.
    apply lookup_insert_eq.
Qed.

(** ** The configuration *)

Lemma get_bernard_config_returns (w : config_world) :
  ∃ config logs, get_bernard_config w = (Ok config, logs).
Proof.
  unfold get_bernard_config, py_open.
  destruct (get_config_path w (get_os w) BERNARD_CONF) as [p|]; [|eauto].
  destruct (files w !! p) as [text|]; [|eauto].
  destruct (yaml_load w text) as [[]|e]; simpl; eauto.
Qed.

(** C7. Loading the configuration never ends in an exception, and when
    the file is missing or its text does not parse (or parses to nothing)
    the function writes one log record and returns the empty
    dictionary. *)
Theorem get_bernard_config_recovers (w : config_world) :
  config_missing w = true ∨ config_unparsable w = true
  ∨ config_empty w = true →
  raises (get_bernard_config w).1 = false
  ∧ ∃ lvl msg, get_bernard_config w = (Ok (VDict ∅), [(lvl, msg)]).
Proof.
  intros H. split.
  { destruct (get_bernard_config_returns w) as (c & l & ->). done. }
  unfold config_missing, config_unparsable, config_empty in H.
  unfold get_bernard_config, py_open.
  destruct (get_config_path w (get_os w) BERNARD_CONF) as [p|].
  - destruct (files w !! p) as [text|] eqn:Ef.
    + destruct H as [H|[H|H]].
      * by apply bool_decide_eq_true in H.
      * destruct (yaml_load w text) as [v|e]; [done|]. simpl. eauto.
      * destruct (yaml_load w text) as [[]|e]; try done. simpl. eauto.
    + eauto.
  - eauto.
Qed.

Lemma get_bernard_config_recovers_witness :
  (raises (get_bernard_config sample_no_file).1 = false
   ∧ ∃ lvl msg, get_bernard_config sample_no_file = (Ok (VDict ∅), [(lvl, msg)]))
  ∧ (raises (get_bernard_config sample_bad_file).1 = false
     ∧ ∃ lvl msg, get_bernard_config sample_bad_file = (Ok (VDict ∅), [(lvl, msg)])).
Proof.
  split.
  - apply get_bernard_config_recovers. left. vm_compute. reflexivity.
  - apply get_bernard_config_recovers. right. left. vm_compute. reflexivity.
Defined.

(** ** The run loop: signal handlers *)

Lemma effects_emit ev s :
  effects (emit ev s) = (effects s ++ if is_log ev then [] else [ev])%list.
Proof.
  unfold effects, emit; simpl. rewrite filter_app. f_equal.
  destruct ev; reflexivity.
Qed.

Lemma persisted_emit ev s :
  persisted (emit ev s)
  = (persisted s ++ match ev with EvPersist st => [st] | _ => [] end)%list.
Proof.
  unfold persisted, emit; simpl. rewrite omap_app. f_equal.
  destruct ev; reflexivity.
Qed.

Lemma process_count_emit ev s :
  process_count (emit ev s)
  = (process_count s + match ev with EvProcess => 1 | _ => 0 end)%nat.
Proof.
  unfold process_count, emit; simpl. rewrite filter_app, length_app. f_equal.
  destruct ev; reflexivity.
Qed.

Lemma restarted_emit ev s :
  restarted (emit ev s) = restarted s || is_restart_log ev.
Proof.
  unfold restarted, emit; simpl. rewrite existsb_app. simpl.
  by rewrite orb_false_r.
Qed.

Lemma same_vars_refl s : same_vars s s.
Proof. by repeat split. Qed.

Lemma same_vars_trans s1 s2 s3 :
  same_vars s1 s2 → same_vars s2 s3 → same_vars s1 s3.
Proof.
  unfold same_vars. intros (?&?&?&?&?&?&?&?) (?&?&?&?&?&?&?&?).
  repeat split; congruence.
Qed.

Section ControllerFacts.
Variable RES : Z.

Lemma handle_sigterm_same s : same_vars s (_handle_sigterm s).
Proof.
  unfold same_vars, _handle_sigterm. repeat split; try done.
  change (effects (emit (EvLog DEBUG "Caught sigterm. Stopping run loop.") s)
          = effects s).
  rewrite effects_emit. simpl. apply app_nil_r.
Qed.

Lemma do_restart_same s : same_vars s (_do_restart RES s).
Proof.
  unfold same_vars, _do_restart. repeat split; try done.
  change (effects (emit (EvLog INFO "Running an auto-restart.") s)
          = effects s).
  rewrite effects_emit. simpl. apply app_nil_r.
Qed.

Lemma handler_same sg s : same_vars s (handler RES sg s).
Proof.
  destruct sg; simpl; try apply handle_sigterm_same.
  eapply same_vars_trans; [apply handle_sigterm_same | apply do_restart_same].
Qed.

Lemma deliver_same sgs : ∀ s, same_vars s (deliver RES sgs s).
Proof.
  induction sgs as [|sg sgs IH]; intros s; simpl; [apply same_vars_refl|].
  destruct (ended s); [apply same_vars_refl|].
  eapply same_vars_trans; [apply handler_same | apply IH].
Qed.

Lemma deliver_persisted sgs : ∀ s,
  persisted (deliver RES sgs s) = persisted s
  ∧ process_count (deliver RES sgs s) = process_count s.
Proof.
  induction sgs as [|sg sgs IH]; intros s; simpl; [done|].
  destruct (ended s); [done|].
  destruct (IH (handler RES sg s)) as [-> ->].
  assert (∀ s0, persisted (_handle_sigterm s0) = persisted s0
                ∧ process_count (_handle_sigterm s0) = process_count s0) as Ht.
  { intros s0. unfold _handle_sigterm. split.
    - change (persisted (emit (EvLog DEBUG "Caught sigterm. Stopping run loop.") s0)
              = persisted s0).
      rewrite persisted_emit. apply app_nil_r.
    - change (process_count (emit (EvLog DEBUG "Caught sigterm. Stopping run loop.") s0)
              = process_count s0).
      rewrite process_count_emit. lia. }
  assert (∀ s0, persisted (_do_restart RES s0) = persisted s0
                ∧ process_count (_do_restart RES s0) = process_count s0) as Hr.
  { intros s0. unfold _do_restart. split.
    - change (persisted (emit (EvLog INFO "Running an auto-restart.") s0)
              = persisted s0).
      rewrite persisted_emit. apply app_nil_r.
    - change (process_count (emit (EvLog INFO "Running an auto-restart.") s0)
              = process_count s0).
      rewrite process_count_emit. lia. }
  destruct sg; simpl; try apply Ht.
  unfold _handle_sigusr1.
  destruct (Hr (_handle_sigterm s)) as [-> ->]. apply Ht.
Qed.

(** Signals other than the restart signal lower the flag and leave the
    process alive. *)
Lemma deliver_graceful sgs : ∀ s,
  graceful sgs = true → ended s = None →
  ended (deliver RES sgs s) = None
  ∧ restarted (deliver RES sgs s) = restarted s
  ∧ run_forever (deliver RES sgs s)
    = match sgs with [] => run_forever s | _ => false end.
Proof.
  induction sgs as [|sg sgs IH]; intros s Hg Hlive; simpl; [done|].
  rewrite Hlive. simpl in Hg. apply andb_true_iff in Hg as [Hsg Hg].
  assert (handler RES sg s = _handle_sigterm s) as ->
    by (destruct sg; [done | done | done]).
  destruct (IH (_handle_sigterm s) Hg) as (He & Hr & Hf); [done|].
  split; [done|]. split.
  - rewrite Hr. unfold _handle_sigterm. simpl.
    unfold restarted; simpl. rewrite existsb_app; simpl.
    by rewrite orb_false_r.
  - rewrite Hf. by destruct sgs.
Qed.

Lemma step_live w s :
  ended s = None → graceful (signals w) = true →
  step RES w s = exec RES w (deliver RES (signals w) s).
Proof.
  intros Hlive Hg. unfold step. rewrite Hlive.
  by destruct (deliver_graceful (signals w) s Hg Hlive) as (-> & _).
Qed.

Lemma step_ended w s o : ended s = Some o → step RES w s = s.
Proof. intros H. unfold step. by rewrite H. Qed.

Lemma run_ended ws : ∀ s o, ended s = Some o → run RES ws s = s.
Proof.
  induction ws as [|w ws IH]; intros s o H; simpl; [done|].
  rewrite (step_ended w s o H). by apply (IH s o).
Qed.

End ControllerFacts.

(** ** The run loop: comparisons *)

Lemma Qgtb_true x y : Qgtb x y = true ↔ (y < x)%Q.
Proof.
  unfold Qgtb. rewrite negb_true_iff. split.
  - intros H. apply Qnot_le_lt. intros Hle.
    apply Qle_bool_iff in Hle. congruence.
  - intros H. destruct (Qle_bool x y) eqn:E; [|done].
    apply Qle_bool_iff in E. by apply Qlt_not_le in H.
Qed.

Lemma Qgtb_false x y : Qgtb x y = false ↔ (x <= y)%Q.
Proof.
  unfold Qgtb. rewrite negb_false_iff. apply Qle_bool_iff.
Qed.

(** The test of line 86 reads: more than ten seconds since the last
    snapshot, or a wait of more than ten seconds. *)
Lemma status_is_due_spec now s last wt :
  last_info_update s = Some last → wait_time s = Some wt →
  ∃ b, status_is_due now s = Ok b
       ∧ (b = true ↔ (10 < now - last ∨ 10 < wt)%Q).
Proof.
  intros Hl Hw. unfold status_is_due. rewrite Hl, Hw. simpl.
  destruct (Qgtb now (last + 10)) eqn:E1.
  - exists true. split; [done|]. apply Qgtb_true in E1.
    split; [intros _; left; lra | done].
  - apply Qgtb_false in E1. exists (Qgtb wt 10). split; [done|].
    rewrite Qgtb_true. split; [by right | intros [H|H]; [lra | done]].
Qed.

Section LoopFacts.
Variable RES : Z.

Lemma deliver_ended sgs s o :
  ended s = Some o → deliver RES sgs s = s.
Proof. intros H. destruct sgs; simpl; [done | by rewrite H]. Qed.

(** C4 (as the code behaves). The restart signal lowers the flag and
    ends the process at once, with no removal of the snapshot; but the
    process ends in the [NameError] that the unbound name
    [AgentSupervisor] raises, not in [sys.exit] with the restart
    status. *)
Theorem sigusr1_ends_in_name_error (s : state) (w : world) (sgs : list signal) :
  ended s = None → signals w = SIGUSR1 :: sgs →
  let s' := step RES w s in
  ended s' = Some (Uncaught NameError)
  ∧ ended s' ≠ Some (SysExit RES)
  ∧ run_forever s' = false
  ∧ pc s' = pc s
  ∧ effects s' = effects s.
Proof.
  intros Hlive Hsig. unfold step. rewrite Hlive, Hsig.
  cbn [deliver]. rewrite Hlive.
  rewrite (deliver_ended sgs (handler RES SIGUSR1 s) (Uncaught NameError))
    by reflexivity.
  simpl. repeat split; try done.
  destruct (handler_same RES SIGUSR1 s) as (_&_&_&_&_&_&_&He). exact He.
Qed.

End LoopFacts.

(** ** The run loop: the status update (lines 85 to 89) *)

Section StatusUpdate.
Variable RES : Z.

(** A step that no restart signal precedes runs the statement at [pc]
    on a state with the same variables. *)
Lemma step_graceful w s :
  ended s = None → graceful (signals w) = true →
  ∃ s0, step RES w s = exec RES w s0
        ∧ same_vars s s0 ∧ ended s0 = None
        ∧ persisted s0 = persisted s
        ∧ process_count s0 = process_count s
        ∧ restarted s0 = restarted s
        ∧ run_forever s0
          = match signals w with [] => run_forever s | _ => false end.
Proof.
  intros Hlive Hg. exists (deliver RES (signals w) s).
  destruct (deliver_graceful RES (signals w) s Hg Hlive) as (He & Hr & Hf).
  destruct (deliver_persisted RES (signals w) s) as [Hp Hc].
  split; [by apply step_live|].
  split; [apply deliver_same|]. done.
Qed.

(** C1. At the status check of an iteration, the machine goes on to
    persist a snapshot exactly when more than ten seconds have passed
    since the last one or the wait time exceeds ten; it then persists
    the scheduler's checks and count and sets [last_info_update] to the
    clock; otherwise it persists nothing and keeps [last_info_update].
    Five seconds after the last snapshot with a wait of three nothing
    is persisted; with a wait of eleven a snapshot is persisted
    whatever the clock says. *)
Theorem status_persisted_iff (s : state) (w1 w2 w3 : world) (last wt : Q) :
  ended s = None → pc s = L_status_check →
  last_info_update s = Some last → wait_time s = Some wt →
  graceful (signals w1) = true → graceful (signals w2) = true →
  graceful (signals w3) = true →
  let due := (10 < clock w1 - last ∨ 10 < wt)%Q in
  let s1 := step RES w1 s in
  let s3 := run RES [w1; w2; w3] s in
  (pc s1 = L_persist ↔ due)
  ∧ (pc s1 = L_plan_check ↔ ¬ due)
  ∧ (ended s1 = None ∧ persisted s1 = persisted s
     ∧ last_info_update s1 = Some last)
  ∧ (due →
       ended s3 = None ∧ pc s3 = L_plan_check
       ∧ persisted s3
         = (persisted s
            ++ [BernardStatus_init (sched_checks w2) (VInt (sched_count w2))])%list
       ∧ last_info_update s3 = Some (clock w3))
  ∧ ((clock w1 - last == 5)%Q → (wt == 3)%Q →
       pc s1 = L_plan_check ∧ persisted s1 = persisted s)
  ∧ ((wt == 11)%Q → pc s1 = L_persist).
Proof.
  intros Hlive Hpc Hlast Hwt Hg1 Hg2 Hg3 due s1 s3.
  destruct (step_graceful w1 s Hlive Hg1)
    as (s0 & Hstep & Hsame & Hlive0 & Hp0 & _ & _ & _).
  destruct Hsame as (Hpc0 & _ & Hli0 & _ & _ & _ & Hwt0 & _).
  rewrite Hpc in Hpc0. rewrite Hlast in Hli0. rewrite Hwt in Hwt0.
  destruct (status_is_due_spec (clock w1) s0 last wt Hli0 Hwt0)
    as (b & Hdue & Hb).
  assert (s1 = if b then goto L_persist s0 else goto L_plan_check s0) as Hs1.
  { subst s1. rewrite Hstep. unfold exec. rewrite Hpc0, Hdue.
    by destruct b. }
  assert (pc s1 = L_persist ↔ due) as Hiff.
  { rewrite Hs1. unfold due. rewrite <- Hb. destruct b; simpl; split; done. }
  assert (pc s1 = L_plan_check ↔ ¬ due) as Hiff'.
  { rewrite Hs1. unfold due. rewrite <- Hb.
    destruct b; simpl; split; done. }
  assert (ended s1 = None ∧ persisted s1 = persisted s
          ∧ last_info_update s1 = Some last) as Hkeep.
  { rewrite Hs1. destruct b; simpl; repeat split; try done;
      by rewrite <- Hp0. }
  split; [exact Hiff|]. split; [exact Hiff'|]. split; [exact Hkeep|].
  split; [|split].
  - intros Hd. apply Hiff in Hd. destruct Hkeep as (Hl1 & Hp1 & Hli1).
    destruct (step_graceful w2 s1 Hl1 Hg2)
      as (s1' & Hstep2 & Hsame2 & Hlive2 & Hp2 & _ & _ & _).
    destruct Hsame2 as (Hpc2 & _ & _ & _ & _ & _ & _ & _).
    rewrite Hd in Hpc2.
    set (s2 := step RES w2 s1).
    assert (s2 = goto L_stamp
                   (emit (EvPersist (BernardStatus_init (sched_checks w2)
                                       (VInt (sched_count w2)))) s1')) as Hs2.
    { subst s2. rewrite Hstep2. unfold exec. by rewrite Hpc2. }
    assert (ended s2 = None) as Hl2 by (by rewrite Hs2).
    destruct (step_graceful w3 s2 Hl2 Hg3)
      as (s2' & Hstep3 & Hsame3 & Hlive3 & Hp3 & _ & _ & _).
    destruct Hsame3 as (Hpc3 & _ & _ & _ & _ & _ & _ & _).
    assert (pc s2 = L_stamp) as Hpcs2 by (by rewrite Hs2).
    rewrite Hpcs2 in Hpc3.
    assert (s3 = goto L_plan_check (set_last_info_update (clock w3) s2'))
      as Hs3.
    { subst s3. simpl. fold s1. fold s2. rewrite Hstep3. unfold exec.
      by rewrite Hpc3. }
    rewrite Hs3. simpl. repeat split; try done.
    change (persisted s2' = (persisted s
      ++ [BernardStatus_init (sched_checks w2) (VInt (sched_count w2))])%list).
    rewrite Hp3, Hs2.
    change (persisted (emit (EvPersist (BernardStatus_init (sched_checks w2)
              (VInt (sched_count w2)))) s1') = (persisted s
      ++ [BernardStatus_init (sched_checks w2) (VInt (sched_count w2))])%list).
    rewrite persisted_emit. by rewrite Hp2, Hp1.
  - intros He Hw. assert (¬ due) as Hnd.
    { subst due. intros [H|H]; lra. }
    apply Hiff' in Hnd. split; [exact Hnd | apply Hkeep].
  - intros Hw. apply Hiff. right. lra.
Qed.

End StatusUpdate.

(** ** The run loop: watchdog and sleep (lines 91 to 97) *)

Lemma py_int_bounds (x : Q) :
  (0 <= x)%Q → (inject_Z (py_int x) <= x)%Q ∧ (x < inject_Z (py_int x) + 1)%Q.
Proof.
  destruct x as [a b]. unfold py_int, Qle, Qlt, inject_Z. simpl.
  intros Ha. assert (0 ≤ a)%Z as Ha' by lia.
  rewrite Z.quot_div_nonneg by lia.
  pose proof (Z.div_mod a (Z.pos b)) as Hdm.
  pose proof (Z.mod_pos_bound a (Z.pos b)) as Hmod.
  split; nia.
Qed.

Section WatchdogAndSleep.
Variable RES : Z.

(** C2 (as the code behaves). When the flag is still up at line 93, the
    machine resets the watchdog with [int(wait_time)], the wait time
    truncated to an integer, and only then sleeps, for the duration a
    new call of [scheduler.wait_time()] returns. When the flag is down
    it does neither. *)
Theorem watchdog_reset_before_sleep (s : state) (w0 w1 w2 : world) (wt : Q) :
  ended s = None → pc s = L_plan_check → wait_time s = Some wt →
  signals w0 = [] → graceful (signals w1) = true →
  graceful (signals w2) = true → (0 <= sched_wait_time w2)%Q →
  let s1 := step RES w0 s in
  let s3 := run RES [w0; w1; w2] s in
  (run_forever s = true →
     ended s3 = None ∧ pc s3 = L_while
     ∧ effects s3
       = (effects s ++ [EvWatchdogReset (Some (py_int wt));
                        EvSleep (sched_wait_time w2)])%list
     ∧ ((0 <= wt)%Q →
        (inject_Z (py_int wt) <= wt)%Q ∧ (wt < inject_Z (py_int wt) + 1)%Q))
  ∧ (run_forever s = false →
     ended s1 = None ∧ pc s1 = L_while ∧ effects s1 = effects s).
Proof.
  intros Hlive Hpc Hwt Hq0 Hg1 Hg2 Hnn s1 s3.
  assert (s1 = if run_forever s then goto L_watchdog s else goto L_while s)
    as Hs1.
  { subst s1. unfold step. rewrite Hlive, Hq0. simpl. rewrite Hlive.
    unfold exec. by rewrite Hpc. }
  split.
  - intros Hrf. rewrite Hrf in Hs1.
    assert (ended s1 = None) as Hl1 by (by rewrite Hs1).
    destruct (step_graceful RES w1 s1 Hl1 Hg1)
      as (s1' & Hstep2 & Hsame2 & Hlive2 & _).
    destruct Hsame2 as (Hpc2 & _ & _ & _ & _ & _ & Hwt2 & Heff2).
    rewrite Hs1 in Hpc2, Hwt2, Heff2. simpl in Hpc2, Hwt2.
    change (effects (goto L_watchdog s)) with (effects s) in Heff2.
    rewrite Hwt in Hwt2.
    set (s2 := step RES w1 s1).
    assert (s2 = goto L_sleep
                   (emit (EvWatchdogReset (Some (py_int wt))) s1')) as Hs2.
    { subst s2. rewrite Hstep2. unfold exec. by rewrite Hpc2, Hwt2. }
    assert (ended s2 = None) as Hl2 by (by rewrite Hs2).
    destruct (step_graceful RES w2 s2 Hl2 Hg2)
      as (s2' & Hstep3 & Hsame3 & Hlive3 & _).
    destruct Hsame3 as (Hpc3 & _ & _ & _ & _ & _ & _ & Heff3).
    assert (pc s2 = L_sleep) as Hpcs2 by (by rewrite Hs2).
    rewrite Hpcs2 in Hpc3.
    assert (s3 = goto L_while (emit (EvSleep (sched_wait_time w2)) s2'))
      as Hs3.
    { subst s3. simpl. fold s1. fold s2. rewrite Hstep3. unfold exec.
      rewrite Hpc3. apply Qle_bool_iff in Hnn. by rewrite Hnn. }
    rewrite Hs3. split; [done|]. split; [done|]. split.
    + change (effects (emit (EvSleep (sched_wait_time w2)) s2')
              = (effects s ++ [EvWatchdogReset (Some (py_int wt));
                               EvSleep (sched_wait_time w2)])%list).
      rewrite effects_emit, Heff3, Hs2.
      change (effects (goto L_sleep ?x)) with (effects x).
      rewrite effects_emit, Heff2. simpl. by rewrite <- app_assoc.
    + apply py_int_bounds.
  - intros Hrf. rewrite Hrf in Hs1. by rewrite Hs1.
Qed.

End WatchdogAndSleep.

(** C2, the claim as stated, fails: with a wait time of 3 at line 79 and a
    scheduler that answers 2 at line 97, the sleep lasts 2. *)
Lemma sleep_requeries_wait_time :
  ¬ (∀ (RES : Z) (s : state) (w0 w1 w2 : world) (wt : Q),
       ended s = None → pc s = L_plan_check → run_forever s = true →
       wait_time s = Some wt →
       signals w0 = [] → signals w1 = [] → signals w2 = [] →
       (0 <= sched_wait_time w2)%Q →
       ∃ extra seconds,
         effects (run RES [w0; w1; w2] s)
         = (effects s ++ [EvWatchdogReset (Some extra); EvSleep seconds])%list
         ∧ (seconds == wt)%Q).
Proof.
  intros Hclaim.
  set (s := run 5 (startup_worlds ++ replicate 5 (sample_world [] 101 3))
                (Bernard_init false)).
  destruct (Hclaim 5%Z s (sample_world [] 101 3) (sample_world [] 101 3)
              (sample_world [] 101 2) 3%Q)
    as (extra & seconds & Heff & Heq); try reflexivity.
  { vm_compute. discriminate. }
  vm_compute in Heff. injection Heff as _ Hsec. subst seconds.
  vm_compute in Heq. discriminate.
Qed.

(** ** The run loop: what every reachable state satisfies *)

Section Invariant.
Variable RES : Z.

(** The module does not bind the name [AgentSupervisor]. *)
Lemma AgentSupervisor_unbound {A} (value : A) :
  load_global "AgentSupervisor" value = Raise NameError.
Proof. reflexivity. Qed.

Lemma consistent_same s s' :
  same_vars s s' → consistent s' = consistent s.
Proof.
  intros (Hpc & _ & Hli & Hri & Has & Hbc & Hwt & Heff).
  unfold consistent. by rewrite Hpc, Hli, Hri, Has, Hbc, Hwt, Heff.
Qed.

Lemma log_records_same logs : ∀ s,
  same_vars s (log_records logs s)
  ∧ ended (log_records logs s) = ended s
  ∧ run_forever (log_records logs s) = run_forever s
  ∧ persisted (log_records logs s) = persisted s
  ∧ process_count (log_records logs s) = process_count s.
Proof.
  induction logs as [|[lvl msg] logs IH]; intros s; simpl.
  - split; [apply same_vars_refl | done].
  - destruct (IH (emit (EvLog lvl msg) s)) as (Hs & He & Hr & Hp & Hc).
    unfold log_records in *. simpl. split; [|split; [|split; [|split]]].
    + eapply same_vars_trans; [|exact Hs].
      unfold same_vars. repeat split; try done.
      rewrite effects_emit. apply app_nil_r.
    + by rewrite He.
    + by rewrite Hr.
    + rewrite Hp, persisted_emit. apply app_nil_r.
    + rewrite Hc, process_count_emit. lia.
Qed.

Lemma consistent_exec w s :
  consistent s = true → consistent (exec RES w s) = true.
Proof.
  intros H. destruct (pc s) eqn:Epc.
  { unfold exec. rewrite Epc.
    destruct (get_bernard_config (config_io w)) as [[c|e] logs] eqn:Eg.
    - destruct (log_records_same logs s) as (Hs & _).
      rewrite <- (consistent_same _ _ Hs) in H.
      destruct Hs as (Hpc & _). rewrite Epc in Hpc.
      revert H. generalize (log_records logs s) Hpc. clear.
      intros s Hpc. unfold consistent, consistent_of. rewrite Hpc. simpl.
      destruct (last_info_update s), (restart_interval s),
        (agent_start s), (bernard_config s); simpl; done.
    - destruct (log_records_same logs s) as (Hs & _).
      unfold crash, finish. 
      rewrite <- (consistent_same _ _ Hs) in H. exact H. }
  all: unfold exec; rewrite Epc; cbv beta iota.
  all: unfold _should_restart, status_is_due, _do_restart, crash.
  all: rewrite ?AgentSupervisor_unbound.
  all: revert H; unfold consistent at 1, consistent_of; rewrite Epc.
  all: destruct (last_info_update s) eqn:Eli, (restart_interval s) as [n|] eqn:Eri,
         (agent_start s) eqn:Eas, (bernard_config s) eqn:Ebc,
         (wait_time s) eqn:Ewt; cbn; try destruct (n =? RESTART_INTERVAL)%Z eqn:En;
         cbn; intros H; try discriminate H.
  all: repeat match goal with
       | |- context [if ?b then _ else _] => destruct b eqn:?; cbn
       end.
  all: unfold consistent, consistent_of; cbn;
       rewrite ?Epc, ?Eli, ?Eri, ?Eas, ?Ebc, ?Ewt; cbn; rewrite ?En; try done.
  all: rewrite filter_app; cbn; case_decide; try done.
  1, 2: by rewrite last_snoc.
  all: rewrite app_nil_r; exact H.
Qed.

Lemma consistent_step w s :
  consistent s = true → consistent (step RES w s) = true.
Proof.
  intros H. unfold step. destruct (ended s); [done|].
  pose proof (consistent_same _ _ (deliver_same RES (signals w) s)) as Hd.
  rewrite <- Hd in H.
  destruct (ended (deliver RES (signals w) s)); [done|].
  by apply consistent_exec.
Qed.

Lemma consistent_run ws : ∀ s,
  consistent s = true → consistent (run RES ws s) = true.
Proof.
  induction ws as [|w ws IH]; intros s H; simpl; [done|].
  apply IH. by apply consistent_step.
Qed.

Lemma consistent_reachable ar ws :
  consistent (run RES ws (Bernard_init ar)) = true.
Proof. by apply consistent_run. Qed.

End Invariant.

(** ** The run loop: restart interval and start time *)

Section RestartPolicy.
Variable RES : Z.

Lemma exec_load_config w s :
  pc s = L_load_config →
  ∃ c logs, exec RES w s
            = goto L_from_config (set_bernard_config c (log_records logs s)).
Proof.
  intros Epc. unfold exec. rewrite Epc.
  destruct (get_bernard_config_returns (config_io w)) as (c & logs & ->).
  by exists c, logs.
Qed.

(** A statement leaves the restart interval and the start time alone
    once they are assigned. *)
Lemma exec_keeps_policy w s :
  consistent s = true →
  (is_set (restart_interval s) = true →
   restart_interval (exec RES w s) = restart_interval s)
  ∧ (is_set (agent_start s) = true →
     agent_start (exec RES w s) = agent_start s).
Proof.
  intros H. destruct (pc s) eqn:Epc.
  { destruct (exec_load_config w s Epc) as (c & logs & ->).
    destruct (log_records_same logs s) as ((_&_&_&Hri&Has&_) & _).
    simpl. by rewrite Hri, Has. }
  all: unfold exec; rewrite Epc; cbv beta iota.
  all: unfold _should_restart, status_is_due, _do_restart, crash.
  all: rewrite ?AgentSupervisor_unbound.
  all: revert H; unfold consistent, consistent_of; rewrite Epc.
  all: destruct (last_info_update s) eqn:Eli, (restart_interval s) as [n|] eqn:Eri,
         (agent_start s) eqn:Eas, (bernard_config s) eqn:Ebc,
         (wait_time s) eqn:Ewt; cbn; try destruct (n =? RESTART_INTERVAL)%Z eqn:En;
         cbn; intros H; try discriminate H.
  all: repeat match goal with
       | |- context [if ?b then _ else _] => destruct b eqn:?; cbn
       end.
  all: rewrite ?Eri, ?Eas; split; intros; done.
Qed.

Lemma step_keeps_policy w s :
  consistent s = true →
  (is_set (restart_interval s) = true →
   restart_interval (step RES w s) = restart_interval s)
  ∧ (is_set (agent_start s) = true →
     agent_start (step RES w s) = agent_start s).
Proof.
  intros H. unfold step. destruct (ended s); [done|].
  pose proof (deliver_same RES (signals w) s) as Hs.
  pose proof (consistent_same _ _ Hs) as Hc. rewrite <- Hc in H.
  destruct Hs as (_ & _ & _ & Hri & Has & _).
  destruct (ended (deliver RES (signals w) s)).
  - by rewrite Hri, Has.
  - destruct (exec_keeps_policy w _ H) as [H1 H2].
    rewrite Hri in H1. rewrite Has in H2.
    split; intros Hset; [rewrite H1 | rewrite H2]; done.
Qed.

Lemma run_keeps_policy ws : ∀ s,
  consistent s = true →
  (is_set (restart_interval s) = true →
   restart_interval (run RES ws s) = restart_interval s)
  ∧ (is_set (agent_start s) = true →
     agent_start (run RES ws s) = agent_start s).
Proof.
  induction ws as [|w ws IH]; intros s H; simpl; [done|].
  destruct (step_keeps_policy w s H) as [H1 H2].
  destruct (IH (step RES w s) (consistent_step RES w s H)) as [H3 H4].
  split; intros Hset.
  - rewrite H3, H1; try done. by rewrite H1.
  - rewrite H4, H2; try done. by rewrite H2.
Qed.

(** C6. Once the process is past the six start-up statements, the
    restart interval is 345600 seconds (four days), whatever the
    configuration holds, and the start time is assigned: it is the
    clock at the statement of line 72. From the moment either is
    assigned no later step changes it. *)
Theorem restart_policy_fixed_at_loop_entry (ar : bool) (ws ws' : list world) :
  let s := run RES ws (Bernard_init ar) in
  let s' := run RES ws' s in
  (started (pc s) = true →
     restart_interval s = Some 345600%Z ∧ ∃ t, agent_start s = Some t)
  ∧ (∀ w, ended s = None → pc s = L_agent_start →
          graceful (signals w) = true →
          pc (step RES w s) = L_while
          ∧ agent_start (step RES w s) = Some (clock w))
  ∧ (is_set (restart_interval s) = true →
       restart_interval s' = restart_interval s)
  ∧ (is_set (agent_start s) = true → agent_start s' = agent_start s).
Proof.
  intros s s'. pose proof (consistent_reachable RES ar ws) as Hc.
  fold s in Hc. split; [|split].
  - intros Hst. unfold started in Hst. apply bool_decide_eq_true in Hst.
    revert Hc. unfold consistent, consistent_of. rewrite Hst. cbn.
    destruct (restart_interval s) as [n|]; cbn;
      [|rewrite andb_false_r; discriminate].
    destruct (agent_start s) as [t|]; cbn;
      [|rewrite !andb_false_r; discriminate].
    intros H. repeat (apply andb_true_iff in H as [H ?]).
    assert (n = RESTART_INTERVAL) as -> by (by apply Z.eqb_eq).
    split; [reflexivity | by exists t].
  - intros w Hlive Hpc Hg.
    destruct (step_graceful RES w s Hlive Hg) as (s0 & -> & Hs & _).
    destruct Hs as (Hpc0 & _). rewrite Hpc in Hpc0.
    unfold exec. by rewrite Hpc0.
  - apply run_keeps_policy, Hc.
Qed.

End RestartPolicy.

(** ** The run loop: [last_info_update] over time *)

Lemma nondecreasing_inv a l :
  nondecreasing (a :: l) = true →
  Forall (Qle a) l ∧ nondecreasing l = true.
Proof.
  revert a. induction l as [|b l IH]; intros a H; [by split|].
  change (Qle_bool a b && nondecreasing (b :: l) = true) in H.
  apply andb_true_iff in H as [Hab Hl]. apply Qle_bool_iff in Hab.
  destruct (IH b Hl) as [Hb _]. split; [|exact Hl].
  constructor; [exact Hab|].
  eapply Forall_impl; [exact Hb|]. intros x Hx. simpl in Hx.
  by apply Qle_trans with b.
Qed.

Lemma nondecreasing_cons a l :
  Forall (Qle a) l → nondecreasing l = true → nondecreasing (a :: l) = true.
Proof.
  intros Ha Hl. destruct l as [|b l]; [done|].
  change (Qle_bool a b && nondecreasing (b :: l) = true).
  apply andb_true_iff. split; [|exact Hl].
  apply Qle_bool_iff. by apply Forall_cons in Ha as [Ha _].
Qed.

Section Stamps.
Variable RES : Z.

(** A statement leaves [last_info_update] alone or sets it to the
    clock. *)
Lemma exec_stamp w s :
  last_info_update (exec RES w s) = last_info_update s
  ∨ last_info_update (exec RES w s) = Some (clock w).
Proof.
  destruct (pc s) eqn:Epc.
  { destruct (exec_load_config RES w s Epc) as (c & logs & ->).
    destruct (log_records_same logs s) as ((_&_&Hli&_) & _).
    left. exact Hli. }
  all: unfold exec; rewrite Epc; cbv beta iota.
  all: unfold _do_restart, crash; rewrite ?AgentSupervisor_unbound.
  all: repeat match goal with
       | |- context [match ?r with Ok _ => _ | Raise _ => _ end] =>
           destruct r as [[]|] eqn:?
       | |- context [if ?b then _ else _] => destruct b eqn:?
       end; cbn; auto.
Qed.

Lemma step_stamp w s :
  last_info_update (step RES w s) = last_info_update s
  ∨ last_info_update (step RES w s) = Some (clock w).
Proof.
  unfold step. destruct (ended s); [by left|].
  destruct (deliver_same RES (signals w) s) as (_ & _ & Hli & _).
  destruct (ended (deliver RES (signals w) s)); [by left|].
  rewrite <- Hli. apply exec_stamp.
Qed.

Lemma stamps_sorted ws : ∀ s,
  nondecreasing (clock <$> ws) = true →
  (∀ a, last_info_update s = Some a → Forall (λ w, (a <= clock w)%Q) ws) →
  nondecreasing (stamps (history RES ws s)) = true
  ∧ (∀ a, last_info_update s = Some a →
          Forall (Qle a) (stamps (history RES ws s))).
Proof.
  induction ws as [|w ws IH]; intros s Hclk Hlast.
  - unfold stamps; simpl. destruct (last_info_update s) as [a|]; simpl.
    + split; [done|]. intros a' [= <-]. constructor; [apply Qle_refl|done].
    + by split.
  - simpl in Hclk. apply nondecreasing_inv in Hclk as [Hw Hclk].
    apply (proj1 (Forall_fmap _ _ _)) in Hw.
    assert (∀ a', last_info_update (step RES w s) = Some a' →
              Forall (λ w' : world, (a' <= clock w')%Q) ws) as Hnext.
    { intros a' Ha'. destruct (step_stamp w s) as [E|E]; rewrite E in Ha'.
      - specialize (Hlast a' Ha'). by apply Forall_cons in Hlast as [_ ?].
      - injection Ha' as <-. exact Hw. }
    destruct (IH (step RES w s) Hclk Hnext) as [Hsorted Hlow].
    change (history RES (w :: ws) s) with (s :: history RES ws (step RES w s)).
    unfold stamps in *. simpl.
    destruct (last_info_update s) as [a|] eqn:Ea; simpl;
      [|split; [exact Hsorted | done]].
    assert (Forall (Qle a) (omap last_info_update
                                 (history RES ws (step RES w s)))) as Hall.
    { specialize (Hlast a eq_refl). apply Forall_cons in Hlast as [Haw _].
      destruct (step_stamp w s) as [E|E].
      - apply Hlow. by rewrite E.
      - eapply Forall_impl; [apply (Hlow (clock w) E)|].
        intros x Hx. simpl in Hx. by apply Qle_trans with (clock w). }
    split.
    + by apply nondecreasing_cons.
    + intros a' [= <-]. constructor; [apply Qle_refl | exact Hall].
Qed.

(** C9. When the clock never goes back, the values [last_info_update]
    takes over the life of the process, start-up included, never
    decrease. *)
Theorem last_info_update_monotone (ar : bool) (ws : list world) :
  nondecreasing (clock <$> ws) = true →
  nondecreasing (stamps (history RES ws (Bernard_init ar))) = true.
Proof.
  intros Hclk. by apply stamps_sorted.
Qed.

End Stamps.

(** ** The run loop: the restart check (lines 81 to 83) *)

Lemma get_bernard_config_logs (w : config_world) :
  Forall (λ rec, is_restart_log (EvLog rec.1 rec.2) = false)
         (get_bernard_config w).2.
Proof.
  unfold get_bernard_config, py_open.
  destruct (get_config_path w (get_os w) BERNARD_CONF) as [p|];
    [|by repeat constructor].
  destruct (files w !! p) as [text|]; [|by repeat constructor].
  destruct (yaml_load w text) as [[]|e]; simpl; by repeat constructor.
Qed.

Lemma log_records_restarted logs : ∀ s,
  Forall (λ rec, is_restart_log (EvLog rec.1 rec.2) = false) logs →
  restarted (log_records logs s) = restarted s.
Proof.
  induction logs as [|rec logs IH]; intros s Hall; [done|].
  apply Forall_cons in Hall as [Hrec Hall].
  change (log_records (rec :: logs) s)
    with (log_records logs (emit (EvLog rec.1 rec.2) s)).
  rewrite (IH _ Hall), restarted_emit, Hrec. apply orb_false_r.
Qed.

Section RestartCheck.
Variable RES : Z.

(** The only statement that enters [_do_restart] is the restart check,
    with auto-restart on and an age above the interval. *)
Lemma exec_restarted w s :
  restarted (exec RES w s)
  = restarted s
    || (bool_decide (pc s = L_restart_check) && autorestart s
        && match _should_restart (clock w) s with
           | Ok true => true
           | _ => false
           end).
Proof.
  destruct (pc s) eqn:Epc.
  { unfold exec. rewrite Epc.
    pose proof (get_bernard_config_logs (config_io w)) as Hlogs.
    destruct (get_bernard_config (config_io w)) as [[c|e] logs]; simpl in *.
    - change (restarted (log_records logs s) = restarted s || false).
      rewrite orb_false_r. by apply log_records_restarted.
    - change (restarted (log_records logs s) = restarted s || false).
      rewrite orb_false_r. by apply log_records_restarted. }
  all: unfold exec; rewrite Epc; cbv beta iota.
  all: unfold crash.
  all: repeat match goal with
       | |- context [match ?r with Ok _ => _ | Raise _ => _ end] =>
           destruct r as [[]|] eqn:?
       | |- context [if ?b then _ else _] => destruct b eqn:?
       end.
  all: unfold _do_restart; rewrite ?AgentSupervisor_unbound.
  all: unfold restarted; cbn; rewrite ?existsb_app; cbn;
       rewrite ?orb_false_r; try done.
  all: by rewrite orb_true_r.
Qed.

Lemma exec_autorestart w s : autorestart (exec RES w s) = autorestart s.
Proof.
  destruct (pc s) eqn:Epc.
  { destruct (exec_load_config RES w s Epc) as (c & logs & ->).
    by destruct (log_records_same logs s) as ((_&Har&_) & _). }
  all: unfold exec; rewrite Epc; cbv beta iota.
  all: unfold _do_restart, crash; rewrite ?AgentSupervisor_unbound.
  all: repeat match goal with
       | |- context [match ?r with Ok _ => _ | Raise _ => _ end] =>
           destruct r as [[]|] eqn:?
       | |- context [if ?b then _ else _] => destruct b eqn:?
       end; done.
Qed.

Lemma step_no_autorestart w s :
  graceful (signals w) = true →
  autorestart s = false → restarted s = false →
  autorestart (step RES w s) = false ∧ restarted (step RES w s) = false.
Proof.
  intros Hg Har Hr. destruct (ended s) as [o|] eqn:Hlive.
  { by rewrite (step_ended RES w s o Hlive). }
  destruct (step_graceful RES w s Hlive Hg)
    as (s0 & -> & Hs & _ & _ & _ & Hr0 & _).
  destruct Hs as (_ & Har0 & _).
  rewrite exec_autorestart, exec_restarted, Har0, Har, Hr0, Hr.
  by rewrite andb_false_r.
Qed.

(** C5. The restart check is reached in every iteration that starts
    with the flag up; there the restart transition is entered exactly
    when auto-restart is on and the age of the process is strictly
    above the restart interval; with auto-restart off no statement ever
    enters it, whatever the clock says. *)
Theorem autorestart_check :
  (∀ (s : state) (w1 w2 w3 : world),
      ended s = None → pc s = L_while → run_forever s = true →
      signals w1 = [] → graceful (signals w2) = true →
      graceful (signals w3) = true →
      ended (run RES [w1; w2; w3] s) = None
      ∧ pc (run RES [w1; w2; w3] s) = L_restart_check)
  ∧ (∀ (s : state) (w : world) (start : Q) (interval : Z),
      ended s = None → restarted s = false → pc s = L_restart_check →
      agent_start s = Some start → restart_interval s = Some interval →
      graceful (signals w) = true →
      (restarted (step RES w s) = true
       ↔ autorestart s = true ∧ (inject_Z interval < clock w - start)%Q)
      ∧ (restarted (step RES w s) = false
         → ended (step RES w s) = None
           ∧ pc (step RES w s) = L_status_check))
  ∧ (∀ (s : state) (ws : list world),
      autorestart s = false → restarted s = false →
      Forall (λ w, graceful (signals w) = true) ws →
      restarted (run RES ws s) = false).
Proof.
  split; [|split].
  - intros s w1 w2 w3 Hlive Hpc Hrf Hq Hg2 Hg3.
    assert (step RES w1 s = goto L_process s) as H1.
    { unfold step. rewrite Hlive, Hq. simpl. rewrite Hlive.
      unfold exec. by rewrite Hpc, Hrf. }
    simpl. rewrite H1.
    destruct (step_graceful RES w2 (goto L_process s) Hlive Hg2)
      as (s1 & -> & (Hpc1 & _) & Hl1 & _).
    simpl in Hpc1.
    assert (exec RES w2 s1 = goto L_wait_time (emit EvProcess s1)) as ->
      by (unfold exec; by rewrite Hpc1).
    destruct (step_graceful RES w3 (goto L_wait_time (emit EvProcess s1))
                Hl1 Hg3) as (s2 & -> & (Hpc2 & _) & Hl2 & _).
    simpl in Hpc2. unfold exec. by rewrite Hpc2.
  - intros s w start interval Hlive Hr Hpc Hst Hint Hg.
    destruct (step_graceful RES w s Hlive Hg)
      as (s0 & Hstep & Hs & Hl0 & _ & _ & Hr0 & _).
    destruct Hs as (Hpc0 & Har0 & _ & Hri0 & Has0 & _).
    rewrite Hpc in Hpc0. rewrite Hst in Has0. rewrite Hint in Hri0.
    assert (_should_restart (clock w) s0
            = Ok (Qgtb (clock w - start) (inject_Z interval))) as Hsr.
    { unfold _should_restart. by rewrite Has0, Hri0. }
    split.
    + rewrite Hstep, exec_restarted, Hr0, Hr, Hpc0, Har0, Hsr. simpl.
      rewrite <- Qgtb_true.
      destruct (autorestart s), (Qgtb (clock w - start) (inject_Z interval));
        simpl; split; try done; by intros [? ?].
    + rewrite Hstep. intros Hno.
      rewrite exec_restarted, Hr0, Hr, Hpc0, Har0, Hsr in Hno.
      simpl in Hno. unfold exec. rewrite Hpc0, Har0, Hsr.
      destruct (autorestart s); [|done].
      by destruct (Qgtb (clock w - start) (inject_Z interval)).
  - intros s ws. revert s.
    induction ws as [|w ws IH]; intros s Har Hr Hall; simpl; [done|].
    apply Forall_cons in Hall as [Hg Hall].
    destruct (step_no_autorestart w s Hg Har Hr) as [Har' Hr'].
    by apply IH.
Qed.

End RestartCheck.

(** ** The run loop: graceful stop (lines 38 to 40 and 99 to 105) *)

Section GracefulStop.
Variable RES : Z.

(** With the flag down and no restart, a statement either is the exit
    or brings the process closer to it, making a scheduler step only if
    it is the [process] call itself. *)
Lemma exec_stopping w s :
  consistent s = true → ended s = None → run_forever s = false →
  (0 <= sched_wait_time w)%Q → restarted (exec RES w s) = false →
  (pc s = L_exit ∧ ended (exec RES w s) = Some (SysExit 0)
   ∧ run_forever (exec RES w s) = false
   ∧ effects (exec RES w s) = effects s
   ∧ process_count (exec RES w s) = process_count s)
  ∨ (ended (exec RES w s) = None ∧ run_forever (exec RES w s) = false
     ∧ (distance (pc (exec RES w s)) < distance (pc s))%nat
     ∧ (process_count (exec RES w s) + process_budget (pc (exec RES w s))
        ≤ process_count s + process_budget (pc s))%nat).
Proof.
  intros Hc Hlive Hrf Hnn Hnr. apply Qle_bool_iff in Hnn.
  destruct (pc s) eqn:Epc.
  { destruct (exec_load_config RES w s Epc) as (c & logs & ->).
    destruct (log_records_same logs s) as (_ & He & Hr & _ & Hp).
    right. cbn. rewrite He, Hr. repeat split; try done; try lia.
    change (process_count (log_records logs s) + 0 ≤ process_count s + 0)%nat.
    lia. }
  all: revert Hnr; unfold exec; rewrite Epc; cbv beta iota.
  all: unfold _should_restart, status_is_due, crash.
  all: revert Hc; unfold consistent, consistent_of; rewrite Epc.
  all: destruct (last_info_update s) eqn:Eli, (restart_interval s) as [n|] eqn:Eri,
         (agent_start s) eqn:Eas, (bernard_config s) eqn:Ebc,
         (wait_time s) eqn:Ewt; cbn; try destruct (n =? RESTART_INTERVAL)%Z eqn:En;
         cbn; intros Hc; try discriminate Hc.
  all: rewrite ?Hrf, ?Hnn.
  all: repeat match goal with
       | |- context [if ?b then _ else _] => destruct b eqn:?; cbn
       end.
  all: intros Hnr.
  all: try (unfold _do_restart in Hnr;
            rewrite ?AgentSupervisor_unbound in Hnr; cbn in Hnr;
            rewrite existsb_app in Hnr; cbn in Hnr;
            rewrite orb_true_r in Hnr; discriminate Hnr).
  all: unfold process_count, effects; cbn;
       rewrite ?filter_app, ?length_app; cbn; repeat case_decide;
       try done; cbn; rewrite ?app_nil_r.
  all: first [ left; repeat split; (done || lia)
             | right; repeat split; (done || lia) ].
Qed.

Lemma consistent_exit s :
  consistent s = true → pc s = L_exit →
  last (effects s) = Some EvRemoveStatus.
Proof.
  unfold consistent, consistent_of. intros H Hpc. rewrite Hpc in H.
  apply andb_true_iff in H as [_ H].
  destruct (last (effects s)) as [[]|]; done.
Qed.

Lemma step_stopping w s :
  consistent s = true → ended s = None →
  graceful (signals w) = true → (0 <= sched_wait_time w)%Q →
  match signals w with [] => run_forever s | _ => false end = false →
  restarted (step RES w s) = false →
  (pc s = L_exit ∧ ended (step RES w s) = Some (SysExit 0)
   ∧ run_forever (step RES w s) = false
   ∧ effects (step RES w s) = effects s
   ∧ process_count (step RES w s) = process_count s)
  ∨ (ended (step RES w s) = None ∧ run_forever (step RES w s) = false
     ∧ (distance (pc (step RES w s)) < distance (pc s))%nat
     ∧ (process_count (step RES w s) + process_budget (pc (step RES w s))
        ≤ process_count s + process_budget (pc s))%nat).
Proof.
  intros Hc Hlive Hg Hnn Hdown Hnr.
  destruct (step_graceful RES w s Hlive Hg)
    as (s0 & Hstep & Hs & Hl0 & _ & Hp0 & _ & Hrf0).
  rewrite Hstep in *. rewrite Hdown in Hrf0.
  pose proof (consistent_same _ _ Hs) as Hc0. rewrite Hc in Hc0.
  destruct Hs as (Hpc0 & _ & _ & _ & _ & _ & _ & Heff0).
  destruct (exec_stopping w s0 Hc0 Hl0 Hrf0 Hnn Hnr) as [H|H];
    [left | right]; by rewrite <- Hpc0, <- ?Heff0, <- Hp0.
Qed.

Lemma restarted_step w s :
  graceful (signals w) = true →
  restarted s = true → restarted (step RES w s) = true.
Proof.
  intros Hg Hr. destruct (ended s) as [o|] eqn:Hlive.
  { by rewrite (step_ended RES w s o Hlive). }
  destruct (step_graceful RES w s Hlive Hg)
    as (s0 & -> & _ & _ & _ & _ & Hr0 & _).
  by rewrite exec_restarted, Hr0, Hr.
Qed.

Lemma restarted_run ws : ∀ s,
  Forall (λ w, graceful (signals w) = true) ws →
  restarted s = true → restarted (run RES ws s) = true.
Proof.
  induction ws as [|w ws IH]; intros s Hall Hr; simpl; [done|].
  apply Forall_cons in Hall as [Hg Hall].
  apply IH; [done|]. by apply restarted_step.
Qed.

Lemma run_stopping ws : ∀ s,
  consistent s = true → ended s = None →
  Forall (λ w, graceful (signals w) = true ∧ (0 <= sched_wait_time w)%Q) ws →
  match ws with
  | w :: _ => match signals w with [] => run_forever s | _ => false end
  | [] => false
  end = false →
  restarted (run RES ws s) = false →
  (distance (pc s) ≤ length ws)%nat →
  ended (run RES ws s) = Some (SysExit 0)
  ∧ run_forever (run RES ws s) = false
  ∧ (process_count (run RES ws s)
     ≤ process_count s + process_budget (pc s))%nat
  ∧ last (effects (run RES ws s)) = Some EvRemoveStatus.
Proof.
  induction ws as [|w ws IH]; intros s Hc Hlive Hall Hdown Hnr Hlen.
  { simpl in Hlen. destruct (pc s); simpl in Hlen; lia. }
  apply Forall_cons in Hall as [[Hg Hnn] Hall]. simpl in Hnr |- *.
  assert (restarted (step RES w s) = false) as Hnr1.
  { destruct (restarted (step RES w s)) eqn:E; [|done].
    rewrite restarted_run in Hnr; [done| |done].
    eapply Forall_impl; [exact Hall|]. by intros w' [? _]. }
  destruct (step_stopping w s Hc Hlive Hg Hnn Hdown Hnr1)
    as [(Hpc & He & Hrf & Heff & Hp)|(He & Hrf & Hd & Hp)].
  - rewrite (run_ended RES ws _ _ He). rewrite Heff, Hp.
    repeat split; try done; [lia | by apply consistent_exit].
  - destruct (IH (step RES w s)) as (H1 & H2 & H3 & H4); try done.
    + by apply consistent_step.
    + destruct ws as [|w' ws]; [done|]. rewrite Hrf. by destruct (signals w').
    + simpl in Hlen. lia.
    + repeat split; try done. lia.
Qed.

(** C3 (as the code behaves). A graceful-stop signal, at any point the
    process can be in, lowers the flag; unless a restart transition
    comes first, the loop then ends after at most one more scheduler
    step, the snapshot is removed and the process exits with status 0,
    the removal being the last thing it does before the exit. *)
Theorem graceful_stop_exits (ar : bool) (ws0 : list world) (w : world)
    (ws : list world) :
  let s := run RES ws0 (Bernard_init ar) in
  let s' := run RES (w :: ws) s in
  ended s = None → signals w ≠ [] →
  Forall (λ w', graceful (signals w') = true ∧ (0 <= sched_wait_time w')%Q)
         (w :: ws) →
  restarted s' = false →
  (distance (pc s) ≤ length (w :: ws))%nat →
  run_forever (step RES w s) = false
  ∧ ended s' = Some (SysExit 0)
  ∧ run_forever s' = false
  ∧ (process_count s' ≤ process_count s + 1)%nat
  ∧ last (effects s') = Some EvRemoveStatus.
Proof.
  intros s s' Hlive Hsig Hall Hnr Hlen.
  pose proof (consistent_reachable RES ar ws0) as Hc. fold s in Hc.
  assert (match signals w with [] => run_forever s | _ => false end = false)
    as Hdown by (by destruct (signals w)).
  split.
  - pose proof Hall as Hall'. apply Forall_cons in Hall' as [[Hg _] _].
    destruct (step_graceful RES w s Hlive Hg)
      as (s0 & Hstep & _ & Hl0 & _ & _ & _ & Hrf0).
    rewrite Hdown in Hrf0. rewrite Hstep.
    assert (∀ w0 s1, run_forever s1 = false →
                     run_forever (exec RES w0 s1) = false) as Hkeep.
    { clear. intros w0 s1 Hrf. destruct (pc s1) eqn:Epc.
      { destruct (exec_load_config RES w0 s1 Epc) as (c & logs & ->).
        destruct (log_records_same logs s1) as (_ & _ & Hr & _).
        cbn. by rewrite Hr. }
      all: unfold exec; rewrite Epc; cbv beta iota.
      all: unfold _do_restart, crash; rewrite ?AgentSupervisor_unbound.
      all: repeat match goal with
           | |- context [match ?r with Ok _ => _ | Raise _ => _ end] =>
               destruct r as [[]|] eqn:?
           | |- context [if ?b then _ else _] => destruct b eqn:?
           end; done. }
    by apply Hkeep.
  - destruct (run_stopping (w :: ws) s Hc Hlive Hall Hdown Hnr Hlen)
      as (H1 & H2 & H3 & H4).
    repeat split; try done.
    fold s' in H3. destruct (pc s); simpl in H3; lia.
Qed.

End GracefulStop.

(** ** The properties on the sample process *)

Lemma sample_worlds_graceful (n : nat) (now wait : Q) :
  (0 <= wait)%Q →
  Forall (λ w', graceful (signals w') = true ∧ (0 <= sched_wait_time w')%Q)
         (replicate n (sample_world [] now wait)).
Proof.
  intros Hw. induction n as [|n IH]; simpl; constructor; [by split | exact IH].
Qed.

Lemma status_persisted_iff_witness :
  persisted (run 5 (replicate 3 (sample_world [] 102 11)) (at_status_check 11))
  = (persisted (at_status_check 11)
     ++ [BernardStatus_init [sample_check_A; sample_check_B] (VInt 7)])%list
  ∧ pc (step 5 (sample_world [] 105 3) (at_status_check 3)) = L_plan_check.
Proof.
  split.
  - apply (status_persisted_iff 5 (at_status_check 11)
             (sample_world [] 102 11) (sample_world [] 102 11)
             (sample_world [] 102 11) 100 11); try reflexivity.
    right. reflexivity.
  - apply (status_persisted_iff 5 (at_status_check 3)
             (sample_world [] 105 3) (sample_world [] 105 3)
             (sample_world [] 105 3) 100 3); reflexivity.
Defined.

Lemma watchdog_reset_before_sleep_witness :
  effects (run 5 [sample_world [] 101 3; sample_world [SIGTERM] 101 3;
                  sample_world [] 101 2] at_plan_check)
  = (effects at_plan_check ++ [EvWatchdogReset (Some 3%Z); EvSleep 2])%list.
Proof.
  apply (watchdog_reset_before_sleep 5 at_plan_check
           (sample_world [] 101 3) (sample_world [SIGTERM] 101 3)
           (sample_world [] 101 2) 3); try reflexivity.
  discriminate.
Defined.

Lemma sigusr1_ends_in_name_error_witness :
  ended (step 5 (sample_world [SIGUSR1] 101 3) (at_process false))
  = Some (Uncaught NameError)
  ∧ effects (step 5 (sample_world [SIGUSR1] 101 3) (at_process false))
    = effects (at_process false).
Proof.
  destruct (sigusr1_ends_in_name_error 5 (at_process false)
              (sample_world [SIGUSR1] 101 3) [] eq_refl eq_refl)
    as (H1 & _ & _ & _ & H2).
  split; [exact H1 | exact H2].
Defined.

Lemma graceful_stop_exits_witness :
  ended (run 5 (sample_world [SIGTERM] 101 3
                :: replicate 12 (sample_world [] 101 3)) (at_process false))
  = Some (SysExit 0)
  ∧ (process_count (run 5 (sample_world [SIGTERM] 101 3
                           :: replicate 12 (sample_world [] 101 3))
                        (at_process false))
     ≤ process_count (at_process false) + 1)%nat.
Proof.
  destruct (graceful_stop_exits 5 false
              (startup_worlds ++ [sample_world [] 101 3])
              (sample_world [SIGTERM] 101 3)
              (replicate 12 (sample_world [] 101 3)))
    as (_ & H1 & _ & H2 & _).
  - reflexivity.
  - discriminate.
  - constructor; [split; [reflexivity | discriminate]|].
    apply sample_worlds_graceful. discriminate.
  - vm_compute. reflexivity.
  - vm_compute. lia.
  - split; [exact H1 | exact H2].
Defined.

Lemma autorestart_check_witness :
  restarted (step 5 (sample_world [] 500000 3) (at_restart_check true 3)) = true
  ∧ restarted (run 5 (replicate 20 (sample_world [] 500000 3))
                   (at_restart_check false 3)) = false.
Proof.
  destruct (autorestart_check 5) as (_ & H2 & H3). split.
  - destruct (H2 (at_restart_check true 3) (sample_world [] 500000 3)
                 100%Q 345600%Z eq_refl eq_refl eq_refl eq_refl eq_refl eq_refl)
      as [Hiff _].
    apply Hiff. split; reflexivity.
  - apply H3; try reflexivity.
    eapply Forall_impl; [apply (sample_worlds_graceful 20 500000 3)|].
    + discriminate.
    + by intros w [? _].
Defined.

Lemma restart_policy_fixed_at_loop_entry_witness :
  restart_interval (run 5 startup_worlds (Bernard_init true)) = Some 345600%Z
  ∧ agent_start (run 5 (replicate 20 (sample_world [] 500 3))
                     (run 5 startup_worlds (Bernard_init true)))
    = agent_start (run 5 startup_worlds (Bernard_init true)).
Proof.
  destruct (restart_policy_fixed_at_loop_entry 5 true startup_worlds
              (replicate 20 (sample_world [] 500 3))) as (H1 & _ & _ & H4).
  split.
  - apply H1. reflexivity.
  - apply H4. reflexivity.
Defined.

Lemma last_info_update_monotone_witness :
  nondecreasing
    (stamps (history 5 (startup_worlds
                        ++ replicate 4 (sample_world [] 101 11)
                        ++ replicate 8 (sample_world [] 120 11))
                     (Bernard_init false))) = true.
Proof.
  apply last_info_update_monotone. vm_compute. reflexivity.
Defined.

(** C3, the claim as stated, fails: a stop signal that arrives while the
    scheduler works, in a process older than the restart interval with
    auto-restart on, is followed by the restart transition; the snapshot
    stays and the process does not exit with status 0. *)
Lemma sigterm_then_autorestart_skips_cleanup :
  ¬ (∀ (RES : Z) (ar : bool) (ws0 : list world) (w : world) (ws : list world),
       let s := run RES ws0 (Bernard_init ar) in
       let s' := run RES (w :: ws) s in
       ended s = None → signals w ≠ [] →
       Forall (λ w', graceful (signals w') = true
                     ∧ (0 <= sched_wait_time w')%Q) (w :: ws) →
       (distance (pc s) ≤ length (w :: ws))%nat →
       ended s' = Some (SysExit 0)
       ∧ last (effects s') = Some EvRemoveStatus).
Proof.
  intros Hclaim.
  destruct (Hclaim 5%Z true (startup_worlds ++ [sample_world [] 500000 3])%list
              (sample_world [SIGTERM] 500000 3)
              (replicate 12 (sample_world [] 500000 3))) as [Hexit _].
  - reflexivity.
  - discriminate.
  - constructor; [split; [reflexivity | discriminate]|].
    apply sample_worlds_graceful. discriminate.
  - vm_compute. lia.
  - vm_compute in Hexit. discriminate Hexit.
Qed.

(** * Further properties of the run loop *)

(** ** How the process ends *)

Lemma removed_emit ev s :
  removed (emit ev s) = removed s || is_removal ev.
Proof.
  unfold removed, emit; simpl. rewrite existsb_app. simpl.
  by rewrite orb_false_r.
Qed.

Lemma log_records_removed logs : ∀ s,
  removed (log_records logs s) = removed s.
Proof.
  induction logs as [|rec logs IH]; intros s; [done|].
  change (log_records (rec :: logs) s)
    with (log_records logs (emit (EvLog rec.1 rec.2) s)).
  rewrite IH, removed_emit. apply orb_false_r.
Qed.

Section Endings.
Variable RES : Z.

Lemma handler_well_ended sg s :
  ended s = None → well_ended s = true →
  well_ended (handler RES sg s) = true.
Proof.
  unfold well_ended, ending_of. intros Hlive. rewrite Hlive.
  destruct sg; unfold handler, _handle_sigusr1, _handle_sigterm, _do_restart;
    rewrite ?AgentSupervisor_unbound; unfold restarted, removed; cbn;
    rewrite ?Hlive, ?existsb_app; cbn; rewrite ?orb_false_r, ?orb_true_r;
    try done.
  intros H. apply andb_true_iff in H as [_ H]. exact H.
Qed.

Lemma deliver_well_ended sgs : ∀ s,
  well_ended s = true → well_ended (deliver RES sgs s) = true.
Proof.
  induction sgs as [|sg sgs IH]; intros s H; simpl; [done|].
  destruct (ended s) eqn:Hlive; [done|].
  apply IH. by apply handler_well_ended.
Qed.

Lemma exec_well_ended w s :
  consistent s = true → ended s = None → well_ended s = true →
  well_ended (exec RES w s) = true.
Proof.
  intros Hc Hlive. unfold well_ended at 1, ending_of. rewrite Hlive.
  intros H. apply andb_true_iff in H as [Hr Hrem].
  apply negb_true_iff in Hr.
  destruct (pc s) eqn:Epc.
  { pose proof (exec_restarted RES w s) as Hre.
    rewrite Epc, Hr in Hre. simpl in Hre.
    destruct (exec_load_config RES w s Epc) as (c & logs & Heq).
    destruct (log_records_same logs s) as (_ & He & _).
    unfold well_ended, ending_of. rewrite Hre. rewrite Heq. cbn.
    rewrite He, Hlive. simpl.
    change (implb (removed (log_records logs s)) false = true).
    rewrite log_records_removed. exact Hrem. }
  all: revert Hrem; unfold exec; rewrite Epc; cbv beta iota.
  all: unfold _should_restart, status_is_due, crash.
  all: revert Hc; unfold consistent, consistent_of; rewrite Epc.
  all: destruct (last_info_update s) eqn:Eli, (restart_interval s) as [n|] eqn:Eri,
         (agent_start s) eqn:Eas, (bernard_config s) eqn:Ebc,
         (wait_time s) eqn:Ewt; cbn; try destruct (n =? RESTART_INTERVAL)%Z eqn:En;
         cbn; intros Hc; try discriminate Hc.
  all: repeat match goal with
       | |- context [if ?b then _ else _] => destruct b eqn:?; cbn
       end.
  all: intros Hrem.
  all: unfold _do_restart; rewrite ?AgentSupervisor_unbound.
  all: unfold well_ended, ending_of, restarted, removed in *; cbn;
       rewrite ?Hlive, ?existsb_app; cbn;
       rewrite ?orb_false_r, ?orb_true_r; cbn.
  all: rewrite ?Hr, ?Epc; destruct (existsb is_removal (trace s));
       try exact Hrem; try reflexivity.
Qed.

Lemma step_well_ended w s :
  consistent s = true → well_ended s = true →
  well_ended (step RES w s) = true.
Proof.
  intros Hc H. unfold step. destruct (ended s) eqn:Hlive; [done|].
  pose proof (consistent_same _ _ (deliver_same RES (signals w) s)) as Hd.
  rewrite Hc in Hd.
  pose proof (deliver_well_ended (signals w) s H) as H'.
  destruct (ended (deliver RES (signals w) s)) eqn:Hlive'; [done|].
  by apply exec_well_ended.
Qed.

Lemma well_ended_reachable ar ws :
  well_ended (run RES ws (Bernard_init ar)) = true.
Proof.
  assert (∀ ws s, consistent s = true → well_ended s = true →
                  well_ended (run RES ws s) = true) as Hrun.
  { clear. induction ws as [|w ws IH]; intros s Hc H; simpl; [done|].
    apply IH; [by apply consistent_step | by apply step_well_ended]. }
  by apply Hrun.
Qed.

End Endings.

Section EndingFacts.
Variable RES : Z.


(** X2. Once the snapshot has been removed the process is at its last
    statement and the removal is the last thing it has done: no check
    runs, no snapshot is persisted and no sleep begins after it. *)
Theorem removal_is_last (ar : bool) (ws : list world) :
  let s := run RES ws (Bernard_init ar) in
  removed s = true →
  pc s = L_exit ∧ last (effects s) = Some EvRemoveStatus.
Proof.
  intros s Hrem.
  pose proof (well_ended_reachable RES ar ws) as Hw. fold s in Hw.
  pose proof (consistent_reachable RES ar ws) as Hc. fold s in Hc.
  unfold well_ended, ending_of in Hw. rewrite Hrem in Hw.
  apply andb_true_iff in Hw as [_ Hpc]. simpl in Hpc.
  apply bool_decide_eq_true in Hpc. split; [exact Hpc|].
  by apply consistent_exit.
Qed.


(** X4. The age check of line 82, when it fires, ends the process at
    once in the [NameError] of [_do_restart]: nothing is persisted and
    the snapshot is not removed. *)
Theorem autorestart_ends_in_name_error (s : state) (w : world)
    (start : Q) (interval : Z) :
  ended s = None → pc s = L_restart_check → autorestart s = true →
  agent_start s = Some start → restart_interval s = Some interval →
  graceful (signals w) = true →
  (inject_Z interval < clock w - start)%Q →
  ended (step RES w s) = Some (Uncaught NameError)
  ∧ effects (step RES w s) = effects s
  ∧ persisted (step RES w s) = persisted s
  ∧ pc (step RES w s) = L_restart_check.
Proof.
  intros Hlive Hpc Har Hst Hint Hg Hage.
  destruct (step_graceful RES w s Hlive Hg)
    as (s0 & -> & Hs & Hl0 & Hp0 & _).
  destruct Hs as (Hpc0 & Har0 & _ & Hri0 & Has0 & _ & _ & Heff0).
  rewrite Hpc in Hpc0. rewrite Har in Har0. rewrite Hst in Has0.
  rewrite Hint in Hri0. apply Qgtb_true in Hage.
  unfold exec. rewrite Hpc0, Har0. unfold _should_restart.
  rewrite Has0, Hri0. cbn. rewrite Hage.
  destruct (do_restart_same RES s0) as (Hpc1 & _ & _ & _ & _ & _ & _ & Heff1).
  repeat split.
  - by rewrite Heff1.
  - rewrite <- Hp0. unfold _do_restart. rewrite AgentSupervisor_unbound.
    change (persisted (emit (EvLog INFO "Running an auto-restart.") s0)
            = persisted s0).
    rewrite persisted_emit. apply app_nil_r.
  - by rewrite Hpc1.
Qed.

End EndingFacts.

(** ** The loop flag and the watchdog *)

Lemma ends_in_reset_cons prev e l :
  ends_in_reset prev (e :: l) = ends_in_reset (is_reset e) l.
Proof.
  unfold ends_in_reset. destruct l as [|e' l]; [done|].
  rewrite last_cons_cons.
  destruct (last (e' :: l)) eqn:E; [done|]. by apply last_None in E.
Qed.

Lemma sleeps_guarded_snoc l : ∀ prev ev,
  sleeps_guarded prev (l ++ [ev])
  = sleeps_guarded prev l
    && (if is_sleep ev then ends_in_reset prev l else true).
Proof.
  induction l as [|e l IH]; intros prev ev.
  - simpl. unfold ends_in_reset. simpl. by rewrite andb_true_r.
  - change (sleeps_guarded prev ((e :: l) ++ [ev]))
      with ((if is_sleep e then prev else true)
            && sleeps_guarded (is_reset e) (l ++ [ev])).
    rewrite IH, ends_in_reset_cons. simpl. by rewrite andb_assoc.
Qed.

Lemma ends_in_reset_snoc prev l ev :
  ends_in_reset prev (l ++ [ev]) = is_reset ev.
Proof. unfold ends_in_reset. by rewrite last_snoc. Qed.

Example unguarded_sleep_rejected :
  sleeps_guarded false [EvWatchdogReset None; EvSleep 1] = false
  ∧ sleeps_guarded false [EvWatchdogReset (Some 1%Z); EvProcess; EvSleep 1]
    = false
  ∧ sleeps_guarded false [EvWatchdogReset (Some 1%Z); EvSleep 1] = true.
Proof. repeat split; reflexivity. Qed.

Section FlagAndWatchdog.
Variable RES : Z.

Lemma exec_flag_down w s :
  run_forever s = false → run_forever (exec RES w s) = false.
Proof.
  intros Hrf. destruct (pc s) eqn:Epc.
  { destruct (exec_load_config RES w s Epc) as (c & logs & ->).
    destruct (log_records_same logs s) as (_ & _ & Hr & _).
    cbn. by rewrite Hr. }
  all: unfold exec; rewrite Epc; cbv beta iota.
  all: unfold _do_restart, crash; rewrite ?AgentSupervisor_unbound.
  all: repeat match goal with
       | |- context [match ?r with Ok _ => _ | Raise _ => _ end] =>
           destruct r as [[]|] eqn:?
       | |- context [if ?b then _ else _] => destruct b eqn:?
       end; done.
Qed.

Lemma deliver_flag_down sgs : ∀ s,
  run_forever s = false → run_forever (deliver RES sgs s) = false.
Proof.
  induction sgs as [|sg sgs IH]; intros s Hrf; simpl; [done|].
  destruct (ended s); [done|]. apply IH. by destruct sg.
Qed.

(** X5. No statement and no signal handler raises the loop flag again:
    once it is down it stays down, whatever signals arrive. *)
Theorem run_forever_stays_down (ws : list world) (s : state) :
  run_forever s = false → run_forever (run RES ws s) = false.
Proof.
  revert s. induction ws as [|w ws IH]; intros s Hrf; simpl; [done|].
  apply IH. unfold step. destruct (ended s); [done|].
  pose proof (deliver_flag_down (signals w) s Hrf) as Hd.
  destruct (ended (deliver RES (signals w) s)); [done|].
  by apply exec_flag_down.
Qed.

Lemma exec_guarded w s :
  guarded_at (pc s) (effects s) = true →
  guarded_at (pc (exec RES w s)) (effects (exec RES w s)) = true.
Proof.
  intros H. pose proof H as H'. unfold guarded_at in H'.
  apply andb_true_iff in H' as [Hg Hl].
  destruct (pc s) eqn:Epc.
  { destruct (exec_load_config RES w s Epc) as (c & logs & ->).
    destruct (log_records_same logs s) as ((_&_&_&_&_&_&_&He) & _).
    unfold guarded_at.
    change (sleeps_guarded false (effects (log_records logs s)) && true = true).
    by rewrite He, Hg. }
  all: unfold exec; rewrite Epc; cbv beta iota.
  all: unfold _do_restart, crash; rewrite ?AgentSupervisor_unbound.
  all: repeat match goal with
       | |- context [match ?r with Ok _ => _ | Raise _ => _ end] =>
           destruct r as [[]|] eqn:?
       | |- context [if ?b then _ else _] => destruct b eqn:?
       end.
  all: unfold guarded_at, effects in *; cbn; rewrite ?Epc; cbn;
       rewrite ?filter_app; cbn; repeat case_decide; try done;
       rewrite ?app_nil_r, ?sleeps_guarded_snoc, ?ends_in_reset_snoc, ?Hg;
       cbn; try done.
  rewrite andb_true_r. exact Hl.
Qed.

(** X6. The process never sleeps unguarded: in everything it does, each
    [time.sleep] comes directly after a [StaticWatchdog.reset] that was
    given a margin, whatever signals arrive and whenever. *)
Theorem every_sleep_follows_reset (ar : bool) (ws : list world) :
  sleeps_guarded false (effects (run RES ws (Bernard_init ar))) = true.
Proof.
  assert (∀ ws s, guarded_at (pc s) (effects s) = true →
                  guarded_at (pc (run RES ws s)) (effects (run RES ws s)) = true)
    as Hrun.
  { clear. induction ws as [|w ws IH]; intros s H; simpl; [done|].
    apply IH. unfold step. destruct (ended s); [done|].
    destruct (deliver_same RES (signals w) s)
      as (Hpc & _ & _ & _ & _ & _ & _ & Heff).
    rewrite <- Hpc, <- Heff in H.
    destruct (ended (deliver RES (signals w) s)); [done|].
    by apply exec_guarded. }
  specialize (Hrun ws (Bernard_init ar) eq_refl).
  unfold guarded_at in Hrun. by apply andb_true_iff in Hrun as [? _].
Qed.

End FlagAndWatchdog.

(** ** A process nobody stops *)

Section Undisturbed.
Variable RES : Z.



End Undisturbed.

(** ** Start-up and one undisturbed iteration *)

Section Sequences.
Variable RES : Z.

Lemma run_cons_quiet w ws s :
  ended s = None → signals w = [] →
  run RES (w :: ws) s = run RES ws (exec RES w s).
Proof.
  intros Hlive Hq. simpl. f_equal. unfold step. rewrite Hlive, Hq. simpl.
  by rewrite Hlive.
Qed.

Lemma exec_restart_check_passes w s start interval :
  pc s = L_restart_check →
  agent_start s = Some start → restart_interval s = Some interval →
  (autorestart s = false ∨ (clock w - start <= inject_Z interval)%Q) →
  exec RES w s = goto L_status_check s.
Proof.
  intros Hpc Has Hri Hage. unfold exec. rewrite Hpc.
  destruct (autorestart s); [|done].
  destruct Hage as [?|Hage]; [done|].
  unfold _should_restart. rewrite Has, Hri. cbn.
  apply Qgtb_false in Hage. by rewrite Hage.
Qed.

Lemma exec_status_check_skips w s last wt :
  pc s = L_status_check →
  last_info_update s = Some last → wait_time s = Some wt →
  (clock w - last <= 10)%Q → (wt <= 10)%Q →
  exec RES w s = goto L_plan_check s.
Proof.
  intros Hpc Hli Hwt H1 H2. unfold exec, status_is_due.
  rewrite Hpc, Hli, Hwt. cbn.
  assert (Qgtb (clock w) (last + 10) = false) as ->
    by (apply Qgtb_false; lra).
  apply Qgtb_false in H2. by rewrite H2.
Qed.

Lemma exec_status_check_persists w s last wt :
  pc s = L_status_check →
  last_info_update s = Some last → wait_time s = Some wt →
  (10 < clock w - last ∨ 10 < wt)%Q →
  exec RES w s = goto L_persist s.
Proof.
  intros Hpc Hli Hwt Hdue.
  destruct (status_is_due_spec (clock w) s last wt Hli Hwt) as (b & Hb & Hiff).
  unfold exec. rewrite Hpc, Hb.
  apply Hiff in Hdue. by rewrite Hdue.
Qed.

(** X8. An iteration that no signal disturbs and that does not restart
    does, in this order: one scheduler step; when the status is due, one
    snapshot of the scheduler's checks and count; the watchdog reset with
    the truncated wait time; the sleep. It ends at the [while] test with
    the process alive, and [last_info_update] changes only when a
    snapshot was persisted. *)
Theorem undisturbed_iteration (s : state)
    (w1 w2 w3 w4 w5 w6 w7 w8 w9 w10 : world) (last start : Q) (interval : Z) :
  ended s = None → pc s = L_while → run_forever s = true →
  last_info_update s = Some last →
  agent_start s = Some start → restart_interval s = Some interval →
  (autorestart s = false ∨ (clock w4 - start <= inject_Z interval)%Q) →
  Forall (λ w, signals w = []) [w1; w2; w3; w4; w5; w6; w7; w8; w9; w10] →
  let wt := sched_wait_time w3 in
  ((clock w5 - last <= 10)%Q → (wt <= 10)%Q → (0 <= sched_wait_time w8)%Q →
   let s' := run RES [w1; w2; w3; w4; w5; w6; w7; w8] s in
   ended s' = None ∧ pc s' = L_while ∧ run_forever s' = true
   ∧ effects s'
     = (effects s ++ [EvProcess; EvWatchdogReset (Some (py_int wt));
                      EvSleep (sched_wait_time w8)])%list
   ∧ last_info_update s' = Some last)
  ∧ ((10 < clock w5 - last ∨ 10 < wt)%Q → (0 <= sched_wait_time w10)%Q →
     let s' := run RES [w1; w2; w3; w4; w5; w6; w7; w8; w9; w10] s in
     ended s' = None ∧ pc s' = L_while ∧ run_forever s' = true
     ∧ effects s'
       = (effects s
          ++ [EvProcess;
              EvPersist (BernardStatus_init (sched_checks w6)
                           (VInt (sched_count w6)));
              EvWatchdogReset (Some (py_int wt));
              EvSleep (sched_wait_time w10)])%list
     ∧ last_info_update s' = Some (clock w7)).
Proof.
  intros Hlive Hpc Hrf Hli Has Hri Hage Hq wt.
  repeat (apply Forall_cons in Hq as [? Hq]).
  assert (run RES [w1; w2; w3; w4] s
          = goto L_status_check
              (goto L_restart_check
                 (set_wait_time wt
                    (goto L_wait_time (emit EvProcess (goto L_process s))))))
    as Hhead.
  { rewrite run_cons_quiet by (cbn -[run]; assumption).
    unfold exec. rewrite Hpc, Hrf.
    rewrite run_cons_quiet by (cbn -[run]; assumption).
    unfold exec. cbn -[run].
    rewrite run_cons_quiet by (cbn -[run]; assumption).
    unfold exec. cbn -[run].
    rewrite run_cons_quiet by (cbn -[run]; assumption).
    rewrite (exec_restart_check_passes w4 _ start interval) by (cbn; done).
    reflexivity. }
  assert (∀ ws, run RES (w1 :: w2 :: w3 :: w4 :: ws) s
                = run RES ws (run RES [w1; w2; w3; w4] s)) as Hsplit
    by reflexivity.
  split.
  - intros Hd1 Hd2 Hnn s'. subst s'. rewrite Hsplit, Hhead.
    rewrite run_cons_quiet by (cbn -[run]; assumption).
    rewrite (exec_status_check_skips w5 _ last wt) by (cbn; done).
    rewrite run_cons_quiet by (cbn -[run]; assumption).
    unfold exec. cbn -[run]. rewrite Hrf.
    rewrite run_cons_quiet by (cbn -[run]; assumption).
    unfold exec. cbn -[run].
    rewrite run_cons_quiet by (cbn -[run]; assumption).
    unfold exec. cbn -[run].
    apply Qle_bool_iff in Hnn. rewrite Hnn. cbn.
    repeat split; try done.
    unfold effects. rewrite !filter_app. cbn. repeat case_decide; try done.
    by rewrite <- !app_assoc.
  - intros Hdue Hnn s'. subst s'. rewrite Hsplit, Hhead.
    rewrite run_cons_quiet by (cbn -[run]; assumption).
    rewrite (exec_status_check_persists w5 _ last wt) by (cbn; done).
    rewrite run_cons_quiet by (cbn -[run]; assumption).
    unfold exec. cbn -[run].
    rewrite run_cons_quiet by (cbn -[run]; assumption).
    unfold exec. cbn -[run].
    rewrite run_cons_quiet by (cbn -[run]; assumption).
    unfold exec. cbn -[run]. rewrite Hrf.
    rewrite run_cons_quiet by (cbn -[run]; assumption).
    unfold exec. cbn -[run].
    rewrite run_cons_quiet by (cbn -[run]; assumption).
    unfold exec. cbn -[run].
    apply Qle_bool_iff in Hnn. rewrite Hnn. cbn.
    repeat split; try done.
    unfold effects. rewrite !filter_app. cbn. repeat case_decide; try done.
    by rewrite <- !app_assoc.
Qed.

(** X9. Start-up, when no signal arrives during it: the scheduler is
    built from the configuration [get_bernard_config] returned, the first
    snapshot holds the scheduler's checks and the schedule count 0, then
    [last_info_update], the restart interval (345600) and the start time
    are assigned, and the process stands at the [while] test with its
    flag up and no scheduler step made. *)
Theorem startup_sequence (ar : bool) (w1 w2 w3 w4 w5 w6 : world)
    (config : pyval) (logs : list (level * string)) :
  get_bernard_config (config_io w1) = (Ok config, logs) →
  Forall (λ w, signals w = []) [w1; w2; w3; w4; w5; w6] →
  let s := run RES [w1; w2; w3; w4; w5; w6] (Bernard_init ar) in
  ended s = None ∧ pc s = L_while ∧ run_forever s = true
  ∧ effects s
    = [EvWatchdogReset None; EvFromConfig config;
       EvPersist (BernardStatus_init (sched_checks w3) (VInt 0))]
  ∧ last_info_update s = Some (clock w4)
  ∧ restart_interval s = Some 345600%Z
  ∧ agent_start s = Some (clock w6)
  ∧ process_count s = 0%nat.
Proof.
  intros Hcfg Hq s. subst s.
  repeat (apply Forall_cons in Hq as [? Hq]).
  destruct (log_records_same logs (Bernard_init ar))
    as (Hsame & He & Hr & Hp & Hc).
  destruct Hsame as (_ & _ & _ & _ & _ & _ & _ & Heff).
  rewrite run_cons_quiet
    by (cbn -[run log_records]; rewrite ?He; first [assumption | reflexivity]).
  unfold exec. cbn -[run log_records]. rewrite Hcfg.
  rewrite run_cons_quiet
    by (cbn -[run log_records]; rewrite ?He; first [assumption | reflexivity]).
  unfold exec. cbn -[run log_records].
  rewrite run_cons_quiet
    by (cbn -[run log_records]; rewrite ?He; first [assumption | reflexivity]).
  unfold exec. cbn -[run log_records].
  rewrite run_cons_quiet
    by (cbn -[run log_records]; rewrite ?He; first [assumption | reflexivity]).
  unfold exec. cbn -[run log_records].
  rewrite run_cons_quiet
    by (cbn -[run log_records]; rewrite ?He; first [assumption | reflexivity]).
  unfold exec. cbn -[run log_records].
  rewrite run_cons_quiet
    by (cbn -[run log_records]; rewrite ?He; first [assumption | reflexivity]).
  unfold exec. cbn -[log_records].
  rewrite He, Hr. repeat split; try done.
  - change (effects (emit (EvPersist (BernardStatus_init (sched_checks w3)
                                        default_schedule_count))
                       (emit (EvFromConfig config)
                          (log_records logs (Bernard_init ar))))
            = [EvWatchdogReset None; EvFromConfig config;
               EvPersist (BernardStatus_init (sched_checks w3) (VInt 0))]).
    rewrite !effects_emit, Heff. reflexivity.
  - change (process_count (emit (EvPersist (BernardStatus_init (sched_checks w3)
                                        default_schedule_count))
                       (emit (EvFromConfig config)
                          (log_records logs (Bernard_init ar)))) = 0%nat).
    rewrite !process_count_emit, Hc. reflexivity.
Qed.

End Sequences.

(** ** Scheduler steps after a stop signal *)

Section StepsAfterStop.
Variable RES : Z.

(** A statement makes a scheduler step exactly when it is the [process]
    call. *)
Lemma exec_process_count w s :
  process_count (exec RES w s)
  = (process_count s + process_budget (pc s))%nat.
Proof.
  destruct (pc s) eqn:Epc.
  { destruct (exec_load_config RES w s Epc) as (c & logs & ->).
    destruct (log_records_same logs s) as (_ & _ & _ & _ & Hc).
    change (process_count (log_records logs s) = (process_count s + 0)%nat).
    lia. }
  all: unfold exec; rewrite Epc; cbv beta iota.
  all: unfold _do_restart, crash; rewrite ?AgentSupervisor_unbound.
  all: repeat match goal with
       | |- context [match ?r with Ok _ => _ | Raise _ => _ end] =>
           destruct r as [[]|] eqn:?
       | |- context [if ?b then _ else _] => destruct b eqn:?
       end.
  all: unfold process_count; cbn; rewrite ?filter_app, ?length_app; cbn;
       repeat case_decide; try done; cbn; lia.
Qed.

Lemma run_stopping_count ws : ∀ s,
  consistent s = true → ended s = None →
  Forall (λ w, graceful (signals w) = true ∧ (0 <= sched_wait_time w)%Q) ws →
  match ws with
  | w :: _ => match signals w with [] => run_forever s | _ => false end
  | [] => false
  end = false →
  restarted (run RES ws s) = false →
  (1 ≤ length ws)%nat →
  process_count (run RES ws s)
  = (process_count s + process_budget (pc s))%nat.
Proof.
  induction ws as [|w ws IH]; intros s Hc Hlive Hall Hdown Hnr Hlen.
  { simpl in Hlen. lia. }
  apply Forall_cons in Hall as [[Hg Hnn] Hall]. simpl in Hnr |- *.
  assert (restarted (step RES w s) = false) as Hnr1.
  { destruct (restarted (step RES w s)) eqn:E; [|done].
    rewrite restarted_run in Hnr; [done| |done].
    eapply Forall_impl; [exact Hall|]. by intros w' [? _]. }
  assert (process_count (step RES w s)
          = (process_count s + process_budget (pc s))%nat) as Hcount.
  { destruct (step_graceful RES w s Hlive Hg)
      as (s0 & -> & (Hpc0 & _) & _ & _ & Hp0 & _).
    by rewrite exec_process_count, Hp0, Hpc0. }
  destruct (step_stopping RES w s Hc Hlive Hg Hnn Hdown Hnr1)
    as [(Hpc & He & Hrf & Heff & Hp)|(He & Hrf & Hd & Hp)].
  - by rewrite (run_ended RES ws _ _ He).
  - destruct ws as [|w' ws]; [exact Hcount|].
    rewrite (IH (step RES w s)); try done.
    + lia.
    + by apply consistent_step.
    + rewrite Hrf. by destruct (signals w').
    + simpl. lia.
Qed.

(** X10. After a graceful-stop signal (and no restart) the scheduler
    makes exactly one more step when the signal arrives between the
    [while] test and the [process] call, and none in every other case. *)
Theorem scheduler_steps_after_stop (ar : bool) (ws0 : list world) (w : world)
    (ws : list world) :
  let s := run RES ws0 (Bernard_init ar) in
  let s' := run RES (w :: ws) s in
  ended s = None → signals w ≠ [] →
  Forall (λ w', graceful (signals w') = true ∧ (0 <= sched_wait_time w')%Q)
         (w :: ws) →
  restarted s' = false →
  process_count s' = (process_count s + process_budget (pc s))%nat.
Proof.
  intros s s' Hlive Hsig Hall Hnr.
  pose proof (consistent_reachable RES ar ws0) as Hc. fold s in Hc.
  apply (run_stopping_count (w :: ws) s); try done.
  - by destruct (signals w).
  - simpl. lia.
Qed.

End StepsAfterStop.

(** * Further properties of the snapshot and of the configuration *)

(** ** Lines *)

Lemma string_app_assoc (a b c : string) : (a ++ b) ++ c = a ++ (b ++ c).
Proof.
  induction a as [|x a IH]; [done|].
  change (String x ((a ++ b) ++ c) = String x (a ++ (b ++ c))).
  by rewrite IH.
Qed.

Lemma string_app_empty_r (a : string) : a ++ "" = a.
Proof.
  induction a as [|x a IH]; [done|].
  change (String x (a ++ "") = String x a). by rewrite IH.
Qed.

Lemma splitlines_from_line a : ∀ cur rest,
  has_break a = false →
  splitlines_from cur (a ++ String LF rest)
  = (cur ++ a) :: splitlines_from "" rest.
Proof.
  induction a as [|c a IH]; intros cur rest Hb.
  - simpl. by rewrite string_app_empty_r.
  - simpl in Hb. apply orb_false_iff in Hb as [Hc Ha].
    apply orb_false_iff in Hc as [Hlf Hcr].
    change (String c a ++ String LF rest) with (String c (a ++ String LF rest)).
    cbn [splitlines_from]. rewrite Hlf, Hcr, IH by done.
    by rewrite string_app_assoc.
Qed.

Lemma splitlines_from_single a : ∀ cur,
  has_break a = false → cur ++ a ≠ "" →
  splitlines_from cur a = [cur ++ a].
Proof.
  induction a as [|c a IH]; intros cur Hb Hne.
  - rewrite string_app_empty_r in *. simpl. by destruct cur.
  - simpl in Hb. apply orb_false_iff in Hb as [Hc Ha].
    apply orb_false_iff in Hc as [Hlf Hcr].
    cbn [splitlines_from]. rewrite Hlf, Hcr, IH; try done.
    + by rewrite string_app_assoc.
    + rewrite string_app_assoc. simpl. by destruct cur.
Qed.

(** [splitlines] undoes the joining of lines: lines without a line
    end, each followed by LF, split back into the same lines. *)
Theorem splitlines_unlines (ls : list string) :
  Forall (λ l, has_break l = false) ls →
  splitlines (unlines ls) = ls.
Proof.
  unfold splitlines. induction ls as [|l ls IH]; intros Hall; [done|].
  apply Forall_cons in Hall as [Hl Hall]. simpl.
  rewrite splitlines_from_line by done. simpl. by rewrite IH.
Qed.

Lemma splitlines_unlines_witness :
  splitlines (unlines ["slow"; ""; "  timed out"]) = ["slow"; ""; "  timed out"].
Proof.
  apply splitlines_unlines. repeat constructor.
Defined.

(** ** Rendering *)

Lemma dict_literal_lookup_None {V} (items : list (string * V)) k :
  k ∉ items.*1 → dict_literal items !! k = None.
Proof.
  intros Hk. apply eq_None_not_Some. intros Hsome.
  apply foldl_insert_is_Some in Hsome as [?|Hsome]; [done|].
  rewrite lookup_empty in Hsome. by destruct Hsome.
Qed.

Section RenderingCases.
Variables S_OK S_TIMEOUT S_EXCEPTION S_INVALID_OUTPUT : string.
Variables R_OK R_WARNING R_CRITICAL R_UNKNOWN R_NONE : string.
Variable style : pyval → string → string.
Variable str_container : pyval → string.

Let statuses := [S_OK; S_TIMEOUT; S_EXCEPTION; S_INVALID_OUTPUT].
Let states := [R_OK; R_WARNING; R_CRITICAL; R_UNKNOWN; R_NONE].
Let status_color := STATUS_COLOR S_OK S_TIMEOUT S_EXCEPTION S_INVALID_OUTPUT.
Let state_color := STATE_COLOR R_OK R_WARNING R_CRITICAL R_UNKNOWN R_NONE.
Let lines_of :=
  check_lines S_OK S_TIMEOUT S_EXCEPTION S_INVALID_OUTPUT
              R_OK R_WARNING R_CRITICAL R_UNKNOWN R_NONE style str_container.
Let render :=
  render_checks S_OK S_TIMEOUT S_EXCEPTION S_INVALID_OUTPUT
                R_OK R_WARNING R_CRITICAL R_UNKNOWN R_NONE style str_container.

Lemma status_color_lookup key :
  (∃ c, getitem_val status_color key = Ok c)
  ↔ ∃ status, key = VStr status ∧ status ∈ statuses.
Proof.
  split.
  - intros [c Hc]. destruct key as [|z|status|l|d]; try discriminate Hc.
    exists status. split; [done|].
    destruct (decide (status ∈ statuses)) as [?|Hn]; [done|].
    simpl in Hc. unfold getitem in Hc.
    subst status_color. unfold STATUS_COLOR in Hc.
    rewrite dict_literal_lookup_None in Hc; [done | exact Hn].
  - intros (status & -> & Hin).
    destruct (dict_literal_is_Some
                [(S_OK, "green"); (S_TIMEOUT, "yellow");
                 (S_EXCEPTION, "red"); (S_INVALID_OUTPUT, "red")] status Hin)
      as [c Hc].
    exists c. simpl. unfold getitem. subst status_color.
    unfold STATUS_COLOR. by rewrite Hc.
Qed.

Lemma state_color_lookup key :
  (∃ c, getitem_val state_color key = Ok c)
  ↔ ∃ state, key = VStr state ∧ state ∈ states.
Proof.
  split.
  - intros [c Hc]. destruct key as [|z|state|l|d]; try discriminate Hc.
    exists state. split; [done|].
    destruct (decide (state ∈ states)) as [?|Hn]; [done|].
    simpl in Hc. unfold getitem in Hc.
    subst state_color. unfold STATE_COLOR in Hc.
    rewrite dict_literal_lookup_None in Hc; [done | exact Hn].
  - intros (state & -> & Hin).
    destruct (dict_literal_is_Some
                [(R_OK, "green"); (R_WARNING, "yellow");
                 (R_CRITICAL, "red"); (R_UNKNOWN, "yellow");
                 (R_NONE, "white")] state Hin)
      as [c Hc].
    exists c. simpl. unfold getitem. subst state_color.
    unfold STATE_COLOR. by rewrite Hc.
Qed.

Lemma first_line_exists (v : pyval) :
  match py_or v (VStr " ") with VStr _ => true | _ => false end = true →
  ∃ ls line, py_splitlines (py_or v (VStr " ")) = Ok ls
             ∧ first_item ls = Ok line.
Proof.
  intros Hv.
  assert (∃ s, py_or v (VStr " ") = VStr s ∧ s ≠ "") as (s & -> & Hs).
  { unfold py_or in *. destruct (truthy v) eqn:Et.
    - destruct v as [|z|s|l|d]; try discriminate Hv.
      exists s. split; [done|]. simpl in Et.
      intros ->. discriminate Et.
    - by exists " ". }
  simpl. pose proof (splitlines_nonempty s Hs) as Hne.
  destruct (splitlines s) as [|line ls] eqn:E; [done|].
  by exists (line :: ls), line.
Qed.




Lemma check_lines_shape check message :
  renderable_stat statuses states check = true →
  check !! "message" = Some message →
  ∃ l1 ls line,
    lines_of check = Ok [l1; "    " ++ line]
    ∧ py_splitlines (py_or message (VStr " ")) = Ok ls
    ∧ first_item ls = Ok line.
Proof.
  unfold renderable_stat. intros H Eme. rewrite Eme in H.
  destruct (check !! "status") as [[| |st| |]|] eqn:Est; try done.
  destruct (check !! "state") as [[| |sa| |]|] eqn:Esa; try done.
  destruct (check !! "check_name") as [name|] eqn:Ena; try done.
  destruct (check !! "run_count") as [[|n| | |]|] eqn:Erc; try done.
  apply andb_true_iff in H as [H Hmsg].
  apply andb_true_iff in H as [Hst Hsa].
  apply bool_decide_eq_true in Hst, Hsa.
  destruct (proj2 (status_color_lookup (VStr st))) as [c1 Hc1];
    [by exists st|].
  destruct (proj2 (state_color_lookup (VStr sa))) as [c2 Hc2];
    [by exists sa|].
  destruct (first_line_exists message Hmsg) as (ls & line & Hls & Hline).
  subst lines_of. unfold check_lines, getitem.
  rewrite Est. cbn [mbind res_bind]. fold status_color. rewrite Hc1.
  rewrite Esa. cbn [mbind res_bind]. fold state_color. rewrite Hc2.
  rewrite Ena, Erc. cbn [mbind res_bind fmt_d]. rewrite Eme.
  cbn [mbind res_bind]. rewrite Hls. cbn [mbind res_bind]. rewrite Hline.
  cbn [mbind res_bind]. eauto 10.
Qed.

(** X12. The second line of a check shows the first line of its message
    only: a message that is [None] or empty gives four spaces and the
    one-space placeholder; a message of one line is shown whole; of a
    message of several lines everything from the first LF on is left
    out. *)
Theorem message_line_shown (check : gmap string pyval) (message : pyval) :
  renderable_stat statuses states check = true →
  check !! "message" = Some message →
  ∃ l1 l2,
    lines_of check = Ok [l1; l2]
    ∧ (truthy message = false → l2 = "     ")
    ∧ (∀ a, message = VStr a → a ≠ "" → has_break a = false →
            l2 = "    " ++ a)
    ∧ (∀ a rest, message = VStr (a ++ String LF rest) →
                 has_break a = false → l2 = "    " ++ a).
Proof.
  intros Hr Eme.
  destruct (check_lines_shape check message Hr Eme)
    as (l1 & ls & line & Hl & Hls & Hline).
  exists l1, ("    " ++ line). split; [exact Hl|]. split; [|split].
  - intros Hf. unfold py_or in Hls. rewrite Hf in Hls.
    injection Hls as <-. by injection Hline as <-.
  - intros a -> Hne Hb. unfold py_or in Hls.
    assert (truthy (VStr a) = true) as Ht.
    { simpl. destruct (String.eqb_spec a ""); [done|done]. }
    rewrite Ht in Hls. injection Hls as <-.
    unfold splitlines in Hline.
    rewrite (splitlines_from_single a "" Hb) in Hline by done.
    by injection Hline as <-.
  - intros a rest -> Hb. unfold py_or in Hls.
    assert (truthy (VStr (a ++ String LF rest)) = true) as Ht.
    { simpl. destruct (String.eqb_spec (a ++ String LF rest) "") as [E|]; [|done].
      by destruct a. }
    rewrite Ht in Hls. injection Hls as <-.
    unfold splitlines in Hline.
    rewrite (splitlines_from_line a "" rest Hb) in Hline.
    by injection Hline as <-.
Qed.

End RenderingCases.

(** ** Serialization and configuration *)

(** X13. [to_dict] keeps every entry of the base class's dictionary
    except the two it writes itself. *)
Theorem to_dict_keeps_base_entries
    (AgentStatus_to_dict : BernardStatus → gmap string pyval)
    (st : BernardStatus) (key : string) :
  key ≠ "checks" → key ≠ "schedule_count" →
  to_dict AgentStatus_to_dict st !! key = AgentStatus_to_dict st !! key.
Proof.
  intros H1 H2. unfold to_dict, dict_update.
  apply lookup_union_r. apply dict_literal_lookup_None. simpl.
  rewrite !not_elem_of_cons. repeat split; try done. apply not_elem_of_nil.
Qed.

Lemma to_dict_keeps_base_entries_witness :
  to_dict (λ _, {[ "pid" := VInt 42 ]}) sample_status !! "pid"
  = ({[ "pid" := VInt 42 ]} : gmap string pyval) !! "pid".
Proof.
  apply (to_dict_keeps_base_entries (λ _, {[ "pid" := VInt 42 ]}));
    discriminate.
Defined.

(** X14. What [get_bernard_config] returns and logs, case by case: a
    file that parses to a value other than [None] gives that value as it
    is, dictionary or not, and no log record; a missing file gives [{}]
    and an INFO record that names [bernard.yaml]; a file the parser
    rejects, or that parses to [None], gives [{}] and an ERROR record
    that names the path. *)
Theorem get_bernard_config_cases (w : config_world) :
  let path := get_config_path w (get_os w) BERNARD_CONF in
  (∀ p text v, path = Some p → files w !! p = Some text →
      yaml_load w text = Ok v → v ≠ VNone →
      get_bernard_config w = (Ok v, []))
  ∧ (config_missing w = true →
      get_bernard_config w
      = (Ok (VDict ∅),
         [(INFO, "Bernard isn't configured: can't find bernard.yaml")]))
  ∧ (∀ p, path = Some p →
      config_unparsable w = true ∨ config_empty w = true →
      get_bernard_config w
      = (Ok (VDict ∅), [(ERROR, "Unable to parse yaml config in " ++ p)])).
Proof.
  intros path. subst path.
  unfold config_missing, config_unparsable, config_empty,
    get_bernard_config, py_open.
  split; [|split].
  - intros p text v -> -> -> Hv. simpl. by destruct v.
  - destruct (get_config_path w (get_os w) BERNARD_CONF) as [p|]; [|done].
    intros H. apply bool_decide_eq_true in H. by rewrite H.
  - intros p -> H. destruct (files w !! p) as [text|].
    + destruct H as [H|H].
      * by destruct (yaml_load w text).
      * by destruct (yaml_load w text) as [[]|].
    + by destruct H.
Qed.

Lemma get_bernard_config_cases_witness :
  get_bernard_config sample_list_file = (Ok (VList [VStr "a"]), [])
  ∧ get_bernard_config sample_no_file
    = (Ok (VDict ∅),
       [(INFO, "Bernard isn't configured: can't find bernard.yaml")])
  ∧ get_bernard_config sample_bad_file
    = (Ok (VDict ∅),
       [(ERROR, "Unable to parse yaml config in /etc/dd-agent/bernard.yaml")]).
Proof.
  split; [|split].
  - apply (proj1 (get_bernard_config_cases sample_list_file)
             "/etc/dd-agent/bernard.yaml" "- a"); try reflexivity.
    discriminate.
  - apply (proj1 (proj2 (get_bernard_config_cases sample_no_file))).
    reflexivity.
  - apply (proj2 (proj2 (get_bernard_config_cases sample_bad_file))
             "/etc/dd-agent/bernard.yaml"); [reflexivity|].
    left. reflexivity.
Defined.

(** ** The further properties on the sample process *)


Lemma removal_is_last_witness :
  pc (run 5 stopped_worlds (Bernard_init false)) = L_exit
  ∧ last (effects (run 5 stopped_worlds (Bernard_init false)))
    = Some EvRemoveStatus.
Proof. exact (removal_is_last 5 false stopped_worlds eq_refl). Defined.


Lemma autorestart_ends_in_name_error_witness :
  ended (step 5 (sample_world [SIGTERM] 500000 3) (at_restart_check true 3))
  = Some (Uncaught NameError)
  ∧ effects (step 5 (sample_world [SIGTERM] 500000 3) (at_restart_check true 3))
    = effects (at_restart_check true 3).
Proof.
  destruct (autorestart_ends_in_name_error 5 (at_restart_check true 3)
              (sample_world [SIGTERM] 500000 3) 100%Q 345600%Z
              eq_refl eq_refl eq_refl eq_refl eq_refl eq_refl eq_refl)
    as (H1 & H2 & _).
  by split.
Defined.

Lemma run_forever_stays_down_witness :
  run_forever (run 5 (replicate 30 (sample_world [SIGINT; SIGTERM] 101 3))
                   (step 5 (sample_world [SIGINT] 101 3) (at_while false)))
  = false.
Proof.
  apply (run_forever_stays_down 5
           (replicate 30 (sample_world [SIGINT; SIGTERM] 101 3))
           (step 5 (sample_world [SIGINT] 101 3) (at_while false))).
  reflexivity.
Defined.


Lemma undisturbed_iteration_witness :
  effects (run 5 (replicate 8 (sample_world [] 101 3)) (at_while true))
  = (effects (at_while true)
     ++ [EvProcess; EvWatchdogReset (Some 3%Z); EvSleep 3])%list.
Proof.
  destruct (undisturbed_iteration 5 (at_while true)
              (sample_world [] 101 3) (sample_world [] 101 3)
              (sample_world [] 101 3) (sample_world [] 101 3)
              (sample_world [] 101 3) (sample_world [] 101 3)
              (sample_world [] 101 3) (sample_world [] 101 3)
              (sample_world [] 101 3) (sample_world [] 101 3)
              100%Q 100%Q 345600%Z eq_refl eq_refl eq_refl eq_refl eq_refl
              eq_refl) as [H _].
  - right. discriminate.
  - repeat constructor.
  - destruct H as (_ & _ & _ & H & _); [discriminate..|exact H].
Defined.

Lemma startup_sequence_witness :
  effects (run 5 startup_worlds (Bernard_init true))
  = [EvWatchdogReset None; EvFromConfig (VDict ∅);
     EvPersist (BernardStatus_init [sample_check_A; sample_check_B] (VInt 0))]
  ∧ pc (run 5 startup_worlds (Bernard_init true)) = L_while.
Proof.
  destruct (startup_sequence 5 true
              (sample_world [] 100 3) (sample_world [] 100 3)
              (sample_world [] 100 3) (sample_world [] 100 3)
              (sample_world [] 100 3) (sample_world [] 100 3)
              (VDict ∅)
              [(INFO, "Bernard isn't configured: can't find bernard.yaml")]
              eq_refl) as (_ & H1 & _ & H2 & _).
  - repeat constructor.
  - split; [exact H2 | exact H1].
Defined.

Lemma scheduler_steps_after_stop_witness :
  process_count (run 5 (sample_world [SIGTERM] 101 3
                        :: replicate 12 (sample_world [] 101 3))
                     (at_process false))
  = (process_count (at_process false) + 1)%nat
  ∧ process_count (run 5 (sample_world [SIGTERM] 101 3
                          :: replicate 12 (sample_world [] 101 3))
                       (at_while false))
    = process_count (at_while false).
Proof.
  split.
  - apply (scheduler_steps_after_stop 5 false
             (startup_worlds ++ [sample_world [] 101 3])%list
             (sample_world [SIGTERM] 101 3)
             (replicate 12 (sample_world [] 101 3))).
    + reflexivity.
    + discriminate.
    + constructor; [split; [reflexivity | discriminate]|].
      apply sample_worlds_graceful. discriminate.
    + vm_compute. reflexivity.
  - unfold at_while.
    rewrite (scheduler_steps_after_stop 5 false startup_worlds
               (sample_world [SIGTERM] 101 3)
               (replicate 12 (sample_world [] 101 3))).
    + vm_compute. reflexivity.
    + reflexivity.
    + discriminate.
    + constructor; [split; [reflexivity | discriminate]|].
      apply sample_worlds_graceful. discriminate.
    + vm_compute. reflexivity.
Defined.

Lemma message_line_shown_witness :
  ∃ l1, check_lines "ok" "timeout" "exception" "invalid_output"
          "ok" "warning" "critical" "unknown" "none"
          (λ _ colour, colour) (λ _, "") (get_status sample_check_C)
        = Ok [l1; "    boom"].
Proof.
  destruct (message_line_shown "ok" "timeout" "exception" "invalid_output"
              "ok" "warning" "critical" "unknown" "none"
              (λ _ colour, colour) (λ _, "") (get_status sample_check_C)
              (VStr (unlines ["boom"; "  at line 3"])) eq_refl eq_refl)
    as (l1 & l2 & Hl & _ & _ & Hmulti).
  exists l1. rewrite Hl.
  by rewrite (Hmulti "boom" (unlines ["  at line 3"]) eq_refl eq_refl).
Defined.
